(** * PyZwaver: the command codec and the security layer

    A shallow embedding of [pyzwaver/command.py] and [pyzwaver/zsecurity.py].
    Python integers are [Z], byte strings and lists of integers are [list Z],
    dictionaries are [gmap], and a call that may raise is a computation in
    the [result] monad below. *)

From Stdlib Require Import ZArith Lia.
From stdpp Require Import base option list strings gmap.

Local Open Scope Z_scope.

(** ** Python run-time conventions *)

(** The exceptions the two modules can raise. *)
Inductive exn : Type :=
| AssertionError
| AttributeError
| IndexError
| KeyError
| NameError
| TypeError
| ValueError
| UnicodeDecodeError.

(** Outcome of a call: a value, or a raised exception. *)
Inductive result (A : Type) : Type :=
| Return (a : A)
| Raise (e : exn).
Arguments Return {A} a.
Arguments Raise {A} e.

#[global] Instance result_ret : MRet result := fun _ a => Return a.
#[global] Instance result_bind : MBind result := fun _ _ f r =>
  match r with
  | Return a => f a
  | Raise e => Raise e
  end.

(** [assert c] *)
Definition py_assert (c : bool) : result unit :=
  if c then Return tt else Raise AssertionError.

(** [len(l)] *)
Definition len {A} (l : list A) : Z := Z.of_nat (length l).

(** [l[i]], with Python's negative indices and its [IndexError]. *)
Definition py_index {A} (l : list A) (i : Z) : result A :=
  let j := if i <? 0 then i + len l else i in
  if j <? 0 then Raise IndexError
  else match l !! Z.to_nat j with
       | Some x => Return x
       | None => Raise IndexError
       end.

(** Normalisation of a slice bound against the length of the sequence. *)
Definition slice_bound (n i : Z) : Z :=
  if i <? 0 then Z.max (i + n) 0 else Z.min i n.

(** [l[a:b]] *)
Definition py_slice {A} (l : list A) (a b : Z) : list A :=
  let lo := slice_bound (len l) a in
  let hi := slice_bound (len l) b in
  take (Z.to_nat (hi - lo)) (drop (Z.to_nat lo) l).

(** [l[a:]] *)
Definition py_slice_from {A} (l : list A) (a : Z) : list A :=
  drop (Z.to_nat (slice_bound (len l) a)) l.

(** [range(start, stop, step)] for a positive step. *)
Definition py_range3 (start stop step : Z) : list Z :=
  (fun k => start + Z.of_nat k * step) <$> seq 0 (Z.to_nat ((stop - start + step - 1) / step)).

(** [range(n)] *)
Definition py_range (n : Z) : list Z := py_range3 0 n 1.

Definition is_byte (z : Z) : bool := (0 <=? z) && (z <? 256).

(** [bytes(l)]: every element has to be in [range(0, 256)]. *)
Definition py_bytes (l : list Z) : result (list Z) :=
  if forallb is_byte l then Return l else Raise ValueError.

(** [d[k]] on a dictionary. *)
Definition dict_get {K V} `{Countable K} (d : gmap K V) (k : K) : result V :=
  match d !! k with
  | Some v => Return v
  | None => Raise KeyError
  end.

(** [t[i]] and [t[a:b]] on a string. *)
Definition str_index (t : string) (i : Z) : result string :=
  c ← py_index (String.list_ascii_of_string t) i;
  Return (String c EmptyString).

Definition str_slice (t : string) (a b : Z) : string :=
  String.string_of_list_ascii (py_slice (String.list_ascii_of_string t) a b).

(** ** Values

    The objects that occur as field values of a command: integers, lists of
    integers, byte strings, text, the tuples of the association-group list,
    sets of bit positions and dictionaries.  [VFloat n d] stands for the
    float that Python's true division [n / d] yields. *)
Set Warnings "-register-all".
Inductive obj : Type :=
| VNone
| VInt (n : Z)
| VFloat (n d : Z)
| VStr (s : string)
| VBytes (b : list Z)
| VList (l : list Z)
| VTuples (l : list (Z * Z * Z))
| VSet (s : gset Z)
| VDict (d : gmap string obj).

Definition is_None (v : obj) : bool :=
  match v with VNone => true | _ => false end.

Definition as_int (v : obj) : result Z :=
  match v with VInt n => Return n | _ => Raise TypeError end.

Definition as_seq (v : obj) : result (list Z) :=
  match v with VList l | VBytes l => Return l | _ => Raise TypeError end.

Definition as_dict (v : obj) : result (gmap string obj) :=
  match v with VDict d => Return d | _ => Raise TypeError end.

(** ** Interfaces to what the repository imports *)

(** Modelled from the spec: the module of protocol constants ([zwave.py],
    imported as [z]) is missing from the sources.  Of its members the code
    refers to three command numbers and to the command table, which the
    specification gives as a lookup from (classId, cmdId) to the ordered
    field descriptors of the command or to the outcome UnknownCommand.
    [SUBCMD_TO_PARSE_TABLE key] is the subscription
    [z.SUBCMD_TO_PARSE_TABLE[key]]: the descriptors, or [None] for
    UnknownCommand, the value that both callers test for; the container
    being out of sight, the subscription is a computation, which a plain
    dictionary without the key would make raise. *)
Class Zwave : Type := {
  Security : Z;
  Security_MessageEncap : Z;
  Security_NetworkKeySet : Z;
  SUBCMD_TO_PARSE_TABLE : Z -> result (option (list string))
}.

(** [bytes.decode(encoding)] of the Python run time. *)
Class Codecs : Type := {
  bytes_decode : list Z -> string -> result string
}.

(** ** command.py *)

(** What a parse action hands back: the pair [(index, value)], or a lone
    integer on the paths that return one. *)
Inductive parsed : Type :=
| Tuple (index : Z) (v : obj)
| Int (index : Z).

Section command.

Context `{Zwave} `{Codecs}.

Definition _GetSignedValue (data : list Z) : result Z :=
  d0 ← py_index data 0;
  let negative := negb (Z.land d0 0x80 =? 0) in
  let value :=
    foldl (fun value d =>
             Z.shiftl value 8 + (if negative then Z.lnot d else d)) 0 data in
  if negative then Return (- (value + 1)) else Return value.

Definition _GetTimeDelta (m : list Z) (index : Z) : result (Z * Z) :=
  a ← py_index m index;
  b ← py_index m (index + 1);
  Return (index + 2, a * 256 + b).

Definition _ParseMeter (m : list Z) (index : Z) : result parsed :=
  if index + 2 >? len m then Return (Tuple index VNone)
  else
    c1 ← py_index m index;
    let unit_extra := Z.shiftr (Z.land c1 0x80) 7 in
    let type := Z.land c1 0x1f in
    let rate := Z.shiftr (Z.land c1 0x60) 5 in
    c2 ← py_index m (index + 1);
    let size := Z.land c2 0x7 in
    let unit := Z.lor (Z.shiftr (Z.land c2 0x18) 3) (Z.shiftl unit_extra 2) in
    let exp := Z.shiftr (Z.land c2 0xe0) 5 in
    let index := index + 2 in
    let out : gmap string obj :=
      <["rate" := VInt rate]> (<["exp" := VInt exp]>
      (<["unit" := VInt unit]> (<["type" := VInt type]> ∅))) in
    if index + size >=? len m then Return (Tuple index VNone)
    else
      let mantissa := py_slice m index (index + size) in
      let index := index + size in
      value ← _GetSignedValue mantissa;
      let out := <["_value" := VFloat value (10 ^ exp)]>
                 (<["mantissa" := VList mantissa]> out) in
      '(index, out) ←
        (if index + 2 <=? len m
         then '(index', dt) ← _GetTimeDelta m index;
              Return (index', <["dt" := VInt dt]> out)
         else Return (index, out));
      if index + size <=? len m then
        let mantissa := py_slice m index (index + size) in
        value ← _GetSignedValue mantissa;
        let out := <["_value2" := VFloat value (10 ^ exp)]>
                   (<["mantissa2" := VList mantissa]> out) in
        Return (Tuple (index + size) (VDict out))
      else Return (Tuple index (VDict out)).

Definition _ParseByte (m : list Z) (index : Z) : result parsed :=
  if len m <=? index then Return (Tuple index VNone)
  else b ← py_index m index; Return (Tuple (index + 1) (VInt b)).

Definition _ParseWord (m : list Z) (index : Z) : result parsed :=
  if len m <=? index + 1 then Return (Tuple index VNone)
  else
    a ← py_index m index;
    b ← py_index m (index + 1);
    Return (Tuple (index + 2) (VInt (a * 256 + b))).

Definition _ENCODING_TO_DECODER : list string :=
  ["ascii"; "latin1"; "utf-16-be"]%string.

Definition _ParseName (m : list Z) (index : Z) : result parsed :=
  _ ← py_assert (len m >? index);
  c ← py_index m index;
  let encoding := Z.land c 3 in
  let m := py_slice_from m (index + 1) in
  b ← py_bytes m;
  codec ← py_index _ENCODING_TO_DECODER encoding;
  decoded ← bytes_decode b codec;
  Return (Tuple (len m)
            (VDict (<["_decoded" := VStr decoded]> (<["text" := VList m]>
                   (<["encoding" := VInt encoding]> ∅))))).

Definition _ParseStringWithLength (m : list Z) (index : Z) : result parsed :=
  size ← py_index m index;
  b ← py_bytes (py_slice m (index + 1) size);
  Return (Tuple (1 + size + index) (VBytes b)).

Definition _ParseStringWithLengthAndEncoding (m : list Z) (index : Z)
  : result parsed :=
  c ← py_index m index;
  let encoding := Z.shiftr c 5 in
  let size := Z.land c 0x1f in
  Return (Tuple (1 + size)
            (VDict (<["text" := VList (py_slice m (index + 1) (index + 1 + size))]>
                   (<["encoding" := VInt encoding]> ∅)))).

Definition _ParseListRest (m : list Z) (index : Z) : result parsed :=
  let size := len m - index in
  Return (Tuple (index + size) (VList (py_slice m index (index + size)))).

Definition _ExtractBitVector (data : list Z) (offset : Z) : gset Z :=
  foldl (fun bits '(i, b) =>
           foldl (fun bits j =>
                    if negb (Z.land b (Z.shiftl 1 j) =? 0)
                    then {[ j + i * 8 + offset ]} ∪ bits else bits)
                 bits (py_range 8))
        ∅ (zip (py_range (len data)) data).

(** The loop of [_ParseGroups], [count] records to go. *)
Fixpoint _ParseGroups_loop (m : list Z) (count : nat) (index : Z)
    (groups : list (Z * Z * Z)) : result (Z * list (Z * Z * Z)) :=
  match count with
  | O => Return (index, groups)
  | S count' =>
      num ← py_index m (index + 0);
      p2 ← py_index m (index + 2);
      p3 ← py_index m (index + 3);
      e5 ← py_index m (index + 5);
      e6 ← py_index m (index + 6);
      _ParseGroups_loop m count' (index + 7)
        (groups ++ [(num, p2 * 256 + p3, e5 * 256 + e6)])
  end.

Definition _ParseGroups (m : list Z) (index : Z) : result parsed :=
  misc ← py_index m index;
  let count := Z.land misc 0x3f in
  if len m <? index + 1 + count * 7 then Return (Tuple index VNone)
  else
    '(index, groups) ← _ParseGroups_loop m (Z.to_nat count) (index + 1) [];
    Return (Tuple index (VTuples groups)).

Definition _ParseBitVector (m : list Z) (index : Z) : result parsed :=
  size ← py_index m index;
  Return (Tuple (index + 1 + size)
            (VSet (_ExtractBitVector (py_slice m (index + 1) (index + 1 + size)) 0))).

Definition _ParseBitVectorRest (m : list Z) (index : Z) : result parsed :=
  Return (Tuple (len m) (VSet (_ExtractBitVector (py_slice_from m index) 0))).

Definition _ParseNonce (m : list Z) (index : Z) : result parsed :=
  let size := 8 in
  if len m <? index + size then Return (Tuple index VNone)
  else Return (Tuple (index + size) (VList (py_slice m index (index + size)))).

Definition _ParseDataRest (m : list Z) (index : Z) : result parsed :=
  let size := len m - index in
  Return (Tuple (index + size) (VList (py_slice m index (index + size)))).

Definition _GetIntLittleEndian (m : list Z) : Z :=
  fst (foldl (fun '(x, shift) i => (x + Z.shiftl i shift, shift + 8)) (0, 0) m).

Definition _GetIntBigEndian (m : list Z) : Z :=
  foldl (fun x i => Z.shiftl x 8 + i) 0 m.

Definition _ParseRestLittleEndianInt (m : list Z) (index : Z) : result parsed :=
  let size := len m - index in
  Return (Tuple (index + size)
            (VDict (<["value" := VInt (_GetIntLittleEndian (py_slice m index (index + size)))]>
                   (<["size" := VInt size]> ∅)))).

Definition _ParseSensor (m : list Z) (index : Z) : result parsed :=
  if len m <? index + 2 then Return (Tuple index VNone)
  else
    c ← py_index m index;
    let precision := Z.land (Z.shiftr c 5) 7 in
    let scale := Z.land (Z.shiftr c 3) 3 in
    let size := Z.land c 7 in
    if len m <? index + 1 + size then Return (Int index)
    else
      let mantissa := py_slice m (index + 1) (index + 1 + size) in
      value ← _GetSignedValue mantissa;
      Return (Tuple (index + 1 + size)
                (VDict (<["_value" := VFloat value (10 ^ precision)]>
                       (<["mantissa" := VList mantissa]>
                       (<["scale" := VInt scale]>
                       (<["exp" := VInt precision]> ∅)))))).

Definition _ParseValue (m : list Z) (index : Z) : result parsed :=
  c ← py_index m index;
  let size := Z.land c 0x7 in
  let start := index + 1 in
  Return (Tuple (index + 1 + size)
            (VDict (<["value" := VInt (_GetIntBigEndian (py_slice m start (start + size)))]>
                   (<["size" := VInt size]> ∅)))).

Definition _ParseDate (m : list Z) (index : Z) : result parsed :=
  if len m <? index + 7 then Return (Int (len m))
  else
    y1 ← py_index m index;
    y2 ← py_index m (index + 1);
    let year := y1 * 256 + y2 in
    month ← py_index m (index + 2);
    day ← py_index m (index + 3);
    hours ← py_index m (index + 4);
    mins ← py_index m (index + 5);
    secs ← py_index m (index + 6);
    Return (Tuple (index + 7) (VList [year; month; day; hours; mins; secs])).

Definition _PARSE_ACTIONS : gmap string (list Z -> Z -> result parsed) :=
  list_to_map [
    ("A", _ParseStringWithLength);
    ("F", _ParseStringWithLengthAndEncoding);
    ("B", _ParseByte);
    ("C", _ParseDate);
    ("G", _ParseGroups);
    ("N", _ParseName);
    ("L", _ParseListRest);
    ("R", _ParseRestLittleEndianInt);
    ("W", _ParseWord);
    ("V", _ParseValue);
    ("M", _ParseMeter);
    ("O", _ParseNonce);
    ("D", _ParseDataRest);
    ("T", _ParseBitVector);
    ("U", _ParseBitVectorRest);
    ("X", _ParseSensor)
  ]%string.

(** [None] stands for Python's [None]. *)
Definition _GetParameterDescriptors (m : list Z) : result (option (list string)) :=
  if len m <? 2 then Return None
  else
    m0 ← py_index m 0;
    m1 ← py_index m 1;
    let key := m0 * 256 + m1 in
    SUBCMD_TO_PARSE_TABLE key.

(** [new_index, value = r] *)
Definition unpack (r : parsed) : result (Z * obj) :=
  match r with
  | Tuple index v => Return (index, v)
  | Int _ => Raise TypeError
  end.

(** The loop of [ParseCommand] over the descriptors still to decode. *)
Fixpoint ParseCommand_loop (m : list Z) (table : list string) (index : Z)
    (out : gmap string obj) : result obj :=
  match table with
  | [] => Return (VDict out)
  | t :: table' =>
      kind ← str_index t 0;
      let name := str_slice t 2 (-1) in
      action ← dict_get _PARSE_ACTIONS kind;
      r ← action m index;
      '(new_index, value) ← unpack r;
      let out := <[name := value]> out in
      if is_None value then Return VNone
      else ParseCommand_loop m table' new_index out
  end.

(** The answer is the empty list for an unknown command, [None] for a
    malformed one and the dictionary of the fields otherwise. *)
Definition ParseCommand (m : list Z) : result obj :=
  table ← _GetParameterDescriptors m;
  match table with
  | None => Return (VList [])
  | Some table => ParseCommand_loop m table 2 ∅
  end.

Definition _MakeDate (date : list Z) : result (list Z) :=
  d0 ← py_index date 0;
  d1 ← py_index date 1;
  d2 ← py_index date 2;
  d3 ← py_index date 3;
  d4 ← py_index date 4;
  d5 ← py_index date 5;
  Return [d0 / 256; d0 mod 256; d1; d2; d3; d4; d5].

Definition _MakeSensor (args : gmap string obj) : result (list Z) :=
  m ← dict_get args "mantissa" ≫= as_seq;
  exp ← dict_get args "exp" ≫= as_int;
  scale ← dict_get args "scale" ≫= as_int;
  let c := Z.lor (Z.lor (Z.shiftl exp 5) (Z.shiftl scale 3)) (len m) in
  Return (c :: m).

Definition _MakeMeter (args : gmap string obj) : result (list Z) :=
  unit ← dict_get args "unit" ≫= as_int;
  rate ← dict_get args "rate" ≫= as_int;
  type ← dict_get args "type" ≫= as_int;
  let c1 := Z.lor (Z.lor (Z.shiftl (Z.land unit 4) 7) (Z.shiftl rate 5))
                  (Z.land type 0x1f) in
  exp ← dict_get args "exp" ≫= as_int;
  unit ← dict_get args "unit" ≫= as_int;
  mantissa ← dict_get args "mantissa" ≫= as_seq;
  let c2 := Z.lor (Z.lor (Z.shiftl exp 5) (Z.shiftl (Z.land unit 3) 3))
                  (len mantissa) in
  delta ← match args !! "dt" with
          | Some dt => dt ← as_int dt; Return [Z.shiftr dt 8; Z.land dt 0xff]
          | None => Return []
          end;
  mantissa ← dict_get args "mantissa" ≫= as_seq;
  mantissa2 ← match args !! "mantissa2" with
              | Some v => as_seq v
              | None => Return []
              end;
  Return ([c1; c2] ++ mantissa ++ delta ++ mantissa2).

(** The body of the loop of [AssembleCommand] for one descriptor of kind
    [kind] and its value [v].  The values are typed: where the code
    appends [v] itself, the model asks for an integer. *)
Definition assemble_field (kind : string) (v : obj) (data : list Z)
  : result (list Z) :=
  if String.eqb kind "B" then
    b ← as_int v; Return (data ++ [b])
  else if String.eqb kind "W" then
    w ← as_int v;
    Return (data ++ [Z.land (Z.shiftr w 8) 0xff] ++ [Z.land w 0xff])
  else if String.eqb kind "Y" then
    if is_None v then Return data
    else b ← as_int v; Return (data ++ [b])
  else if String.eqb kind "N" then
    Return (data ++ [1])
  else if String.eqb kind "K" then
    k ← as_seq v;
    _ ← py_assert (len k =? 16);
    Return (data ++ k)
  else if String.eqb kind "D" then
    l ← as_seq v; Return (data ++ l)
  else if String.eqb kind "S" then
    Raise AssertionError
  else if String.eqb kind "L" then
    l ← as_seq v; Return (data ++ l)
  else if String.eqb kind "C" then
    l ← as_seq v; d ← _MakeDate l; Return (data ++ d)
  else if String.eqb kind "O" then
    l ← as_seq v; Return (data ++ l)
  else if String.eqb kind "V" then
    d ← as_dict v;
    size ← dict_get d "size" ≫= as_int;
    value ← dict_get d "value" ≫= as_int;
    Return (foldl (fun data i => data ++ [Z.land (Z.shiftr value (8 * i)) 0xff])
                  (data ++ [size]) (reverse (py_range size)))
  else if String.eqb kind "X" then
    d ← as_dict v; s ← _MakeSensor d; Return (data ++ s)
  else if String.eqb kind "M" then
    d ← as_dict v; s ← _MakeMeter d; Return (data ++ s)
  else if String.eqb kind "F" then
    d ← as_dict v;
    m ← dict_get d "text" ≫= as_seq;
    encoding ← dict_get d "encoding" ≫= as_int;
    let c := Z.lor (Z.shiftl encoding 5) (len m) in
    text ← dict_get d "text" ≫= as_seq;
    Return (data ++ [c] ++ text)
  else if String.eqb kind "R" then
    d ← as_dict v;
    value ← dict_get d "value" ≫= as_int;
    size ← dict_get d "size" ≫= as_int;
    Return (fst (foldl (fun '(data, value) _ =>
                          (data ++ [Z.land value 0xff], Z.shiftr value 8))
                       (data, value) (py_range size)))
  else Raise AssertionError.

(** The loop of [AssembleCommand] over the descriptors still to encode. *)
Fixpoint AssembleCommand_loop (table : list string) (args : gmap string obj)
    (data : list Z) : result (list Z) :=
  match table with
  | [] => Return data
  | t :: table' =>
      kind ← str_index t 0;
      let name := str_slice t 2 (-1) in
      v ← dict_get args name;
      data ← assemble_field kind v data;
      AssembleCommand_loop table' args data
  end.

Definition AssembleCommand (cmd0 cmd1 : Z) (args : gmap string obj)
  : result (list Z) :=
  table ← SUBCMD_TO_PARSE_TABLE (cmd0 * 256 + cmd1);
  match table with
  | None => Raise AssertionError
  | Some table => AssembleCommand_loop table args [cmd0; cmd1]
  end.
End command.

(** ** The block cipher of [Crypto.Cipher]

    [AES.new(key)] followed by [cipher.encrypt(data)] is the library's
    electronic-codebook encryption.  The library is not part of the
    repository; its block function is an interface, and the checks the
    library makes on the sizes of its arguments are written out. *)
Class BlockCipher : Type := {
  ecb_encrypt : list Z -> list Z -> list Z
}.

(** What the development relies on: a 16-byte block under a 16-byte key
    encrypts to a 16-byte block. *)
Definition cipher_block_ok `{BlockCipher} : Prop :=
  forall key block : list Z,
    length key = 16%nat -> forallb is_byte key = true ->
    length block = 16%nat -> forallb is_byte block = true ->
    length (ecb_encrypt key block) = 16%nat /\
    forallb is_byte (ecb_encrypt key block) = true.

Record cipher : Type := { cipher_key : list Z }.

(** ** zsecurity.py *)

(** The two keys a [Crypter] object holds. *)
Record Crypter : Type := {
  _auth_key : list Z;
  _crypt_key : list Z
}.

(** A nonce and the instant it expires at; no operation below reads the
    instant, which is left an integer. *)
Record Nonce : Type := {
  value : list Z;
  expiration : Z
}.

(** The attributes of a [SecureQueue] object.  An object holds an attribute
    once a statement has assigned it, and reading one that it does not hold
    raises [AttributeError]; so each attribute is there or not.  A queued
    message is the sequence [[class, subcommand, arg1, ...]]. *)
Record SecureQueue : Type := {
  _node : option Z;
  _controller_node : option Z;
  _controller : option Z;
  _crypter : option Crypter;
  _security : option Crypter;
  _queue : option (list (list obj));
  _nonce_outbound : option Nonce;
  _nonce_outbound_requested : option bool
}.

(** [SecureQueue()]: the class defines no [__init__] (its set-up method
    bears the name [__init], which the construction of an object does not
    call), so the call takes no argument and returns an object without
    attributes. *)
Definition SecureQueue_new : SecureQueue :=
  {| _node := None; _controller_node := None; _controller := None;
     _crypter := None; _security := None; _queue := None;
     _nonce_outbound := None; _nonce_outbound_requested := None |}.

(** [self._crypter = c] *)
Definition set_crypter (c : Crypter) (self : SecureQueue) : SecureQueue :=
  {| _node := _node self; _controller_node := _controller_node self;
     _controller := _controller self;
     _crypter := Some c; _security := _security self; _queue := _queue self;
     _nonce_outbound := _nonce_outbound self;
     _nonce_outbound_requested := _nonce_outbound_requested self |}.

(** [self._queue = q], and what an update in place of the list leaves. *)
Definition set_queue (q : list (list obj)) (self : SecureQueue) : SecureQueue :=
  {| _node := _node self; _controller_node := _controller_node self;
     _controller := _controller self;
     _crypter := _crypter self; _security := _security self; _queue := Some q;
     _nonce_outbound := _nonce_outbound self;
     _nonce_outbound_requested := _nonce_outbound_requested self |}.

(** [self._nonce_outbound = n] *)
Definition set_nonce_outbound (n : Nonce) (self : SecureQueue) : SecureQueue :=
  {| _node := _node self; _controller_node := _controller_node self;
     _controller := _controller self;
     _crypter := _crypter self; _security := _security self; _queue := _queue self;
     _nonce_outbound := Some n;
     _nonce_outbound_requested := _nonce_outbound_requested self |}.

(** A method of [SecureQueue]: it reads and updates the object in place and
    returns or raises; what it changed before raising stays changed. *)
Definition method (A : Type) : Type := SecureQueue -> result A * SecureQueue.

#[global] Instance method_ret : MRet method := fun _ a self => (Return a, self).
#[global] Instance method_bind : MBind method := fun _ _ f m self =>
  match m self with
  | (Return a, self') => f a self'
  | (Raise e, self') => (Raise e, self')
  end.

Definition lift {A} (r : result A) : method A := fun self => (r, self).

(** [self.f]: the attribute, or [AttributeError] on an object without it. *)
Definition getattr {A} (f : SecureQueue -> option A) : method A :=
  fun self =>
    (match f self with Some a => Return a | None => Raise AttributeError end, self).
Definition setattr (f : SecureQueue -> SecureQueue) : method unit :=
  fun self => (Return tt, f self).

Section zsecurity.

Context `{BlockCipher} `{Zwave} `{Codecs}.

(** [AES.new(key)] *)
Definition AES_new (key : list Z) : result cipher :=
  if (len key =? 16) || (len key =? 24) || (len key =? 32)
  then Return {| cipher_key := key |}
  else Raise ValueError.

(** [cipher.encrypt(data)] *)
Definition encrypt (c : cipher) (data : list Z) : result (list Z) :=
  if len data mod 16 =? 0
  then Return (ecb_encrypt (cipher_key c) data)
  else Raise ValueError.

Definition _DEFAULT_NETWORK_KEY : list Z :=
  [0; 1; 2; 3; 4; 5; 6; 7; 8; 9; 10; 11; 12; 13; 14; 15].
Definition _TEMP_NETWORK_KEY : list Z := replicate 16 0.
Definition _CRYPT_SECRET : list Z := replicate 16 0xaa.
Definition _AUTH_SECRET : list Z := replicate 16 0x55.

(** The loop of [Crypt]: [i] is the loop index, [iv] the running state,
    [data] the elements from index [i] on; the result is [out[i:]]. *)
Fixpoint Crypt_loop (c : cipher) (data : list Z) (i : Z) (iv : list Z)
  : result (list Z) :=
  match data with
  | [] => Return []
  | d :: data' =>
      iv' ← (if i mod 16 =? 0 then encrypt c iv else Return iv);
      k ← py_index iv' (i mod 16);
      out ← Crypt_loop c data' (i + 1) iv';
      Return (Z.lxor d k :: out)
  end.

Definition Crypt (key data iv_orig : list Z) : result (list Z) :=
  _ ← py_assert (len iv_orig =? 16);
  iv ← py_bytes iv_orig;
  k ← py_bytes key;
  c ← AES_new k;
  Crypt_loop c data 0 iv.

(** [for i in range(16): auth[i] = auth[i] ^ buf[x + i]] *)
Fixpoint xor_block (auth buf : list Z) (x : Z) (idx : list Z)
  : result (list Z) :=
  match idx with
  | [] => Return auth
  | i :: idx' =>
      a ← py_index auth i;
      b ← py_index buf (x + i);
      xor_block (<[Z.to_nat i := Z.lxor a b]> auth) buf x idx'
  end.

(** The outer loop of [ComputeMAC] over the block offsets [xs]. *)
Fixpoint ComputeMAC_loop (c : cipher) (buf auth : list Z) (xs : list Z)
  : result (list Z) :=
  match xs with
  | [] => Return auth
  | x :: xs' =>
      auth1 ← xor_block auth buf x (py_range 16);
      b ← py_bytes auth1;
      auth2 ← encrypt c b;
      ComputeMAC_loop c buf auth2 xs'
  end.

Definition ComputeMAC (key data iv : list Z) (sub_command src_node dst_node : Z)
  : result (list Z) :=
  _ ← py_assert (len iv =? 16);
  let padding := replicate 16 0 in
  let header := [sub_command; src_node; dst_node; len data] in
  let buf := header ++ data ++ padding in
  k ← py_bytes key;
  c ← AES_new k;
  b ← py_bytes iv;
  auth ← encrypt c b;
  auth ← ComputeMAC_loop c buf auth (py_range3 0 (len header + len data) 16);
  Return (py_slice auth 0 8).

(** [Crypter.__init__] *)
Definition Crypter_init (key : list Z) : result Crypter :=
  _ ← py_assert (len key =? 16);
  k ← py_bytes key;
  c ← AES_new k;
  a ← py_bytes _AUTH_SECRET;
  auth ← encrypt c a;
  s ← py_bytes _CRYPT_SECRET;
  crypt ← encrypt c s;
  Return {| _auth_key := auth; _crypt_key := crypt |}.

Definition Wrap (self : Crypter) (payload nonce random : list Z)
    (sub_command src_node dst_node : Z) : result (list Z) :=
  _ ← py_assert (len random =? 8);
  _ ← py_assert (len nonce =? 8);
  let iv := random ++ nonce in
  let plain := 0 :: payload in
  enc ← Crypt (_crypt_key self) plain iv;
  mac ← ComputeMAC (_auth_key self) enc iv sub_command src_node dst_node;
  n0 ← py_index nonce 0;
  Return (py_slice iv 0 8 ++ enc ++ [n0] ++ mac).

(** [for a, b in zip(mac_actual, mac_expected): if a != b: return None] *)
Fixpoint mac_equal (actual expected : list Z) : bool :=
  match actual, expected with
  | a :: actual', b :: expected' =>
      if a =? b then mac_equal actual' expected' else false
  | _, _ => true
  end.

(** [Unwrap] answers [None] on a nonce or MAC mismatch. *)
Definition Unwrap (self : Crypter) (wrapped nonce : list Z)
    (sub_command src_node dst_node : Z) : result (option (list Z)) :=
  let enc_size := len wrapped - 8 - 8 - 1 in
  let iv := py_slice wrapped 0 8 ++ nonce in
  let enc := py_slice wrapped 8 (8 + enc_size) in
  let mac_expected := py_slice_from wrapped (-8) in
  w9 ← py_index wrapped (-9);
  n0 ← py_index nonce 0;
  if negb (w9 =? n0) then Return None
  else
    mac_actual ← ComputeMAC (_auth_key self) enc iv sub_command src_node dst_node;
    if negb (mac_equal mac_actual mac_expected) then Return None
    else
      plain ← Crypt (_crypt_key self) enc iv;
      Return (Some (py_slice_from plain 1)).

(** [self._queue.append(message)]: the attribute is read, and the list it
    holds is extended in place. *)
Definition EnqueueMessage (message : list obj) : method unit :=
  queue ← getattr _queue;
  setattr (set_queue (queue ++ [message])).

(** The module binds no name [_Crypter]; evaluating it raises. *)
Definition _Crypter (key : obj) : result Crypter := Raise NameError.

Definition SetKey (key : obj) : method unit :=
  c ← lift (_Crypter key);
  setattr (set_crypter c).

Definition GetRandomList (n : Z) : list Z := py_slice _CRYPT_SECRET 0 n.

(** [self._queue.pop(0)] *)
Definition queue_pop0 : method (list obj) :=
  queue ← getattr _queue;
  match queue with
  | [] => lift (Raise IndexError)
  | cmd :: queue' => _ ← setattr (set_queue queue'); mret cmd
  end.

(** [command.AssembleCommand(cmd)]: the function takes three positional
    arguments, so the call with one raises. *)
Definition AssembleCommand_1 (cmd : list obj) : result (list Z) :=
  Raise TypeError.

Definition obj_eqb_int (v : obj) (n : Z) : bool :=
  match v with VInt k => k =? n | _ => false end.

(** The answer is [None] or the list [[class, subcommand, wrapped]]. *)
Definition ProcessReceivedNonce (nonce : Nonce)
  : method (option (Z * Z * list Z)) :=
  _ ← setattr (set_nonce_outbound nonce);
  queue ← getattr _queue;
  if negb (len queue =? 0) then mret None
  else
    cmd ← queue_pop0;
    raw ← lift (AssembleCommand_1 cmd);
    security ← getattr _security;
    let random := GetRandomList 8 in
    controller ← getattr _controller;
    node ← getattr _node;
    wrapped ← lift (Wrap security raw (value nonce) random
                         Security_MessageEncap controller node);
    c0 ← lift (py_index cmd 0);
    _ ← (if obj_eqb_int c0 Security then
           c1 ← lift (py_index cmd 1);
           if obj_eqb_int c1 Security_NetworkKeySet then
             key ← lift (py_index cmd 2);
             SetKey key
           else mret tt
         else mret tt);
    mret (Some (Security, Security_MessageEncap, wrapped)).
End zsecurity.

(** ** Sample instances

    Concrete members for the interfaces, to run the definitions on. *)

(** A stand-in for the block function: it has the sizes of the real one. *)
Definition sample_block (key block : list Z) : list Z :=
  zip_with (fun k b => (k + 5 * b + 1) mod 256) key block.

Definition sample_cipher : BlockCipher := {| ecb_encrypt := sample_block |}.

Definition sample_table : gmap Z (list string) :=
  list_to_map [
    (0x2001, ["B{level}"]);
    (0x3105, ["B{type}"; "X{value}"]);
    (0x3202, ["M{meter}"]);
    (0x7004, ["B{parameter}"; "V{value}"]);
    (0x8A02, ["C{date}"]);
    (0x9880, ["O{nonce}"]);
    (0x9881, ["L{message}"])
  ]%string.

Definition sample_zwave : Zwave := {|
  Security := 0x98;
  Security_MessageEncap := 0x81;
  Security_NetworkKeySet := 0x06;
  SUBCMD_TO_PARSE_TABLE := fun key => Return (sample_table !! key)
|}.

(** The two single-byte codecs. *)
Definition sample_decode (b : list Z) (codec : string) : result string :=
  let text := String.string_of_list_ascii
                ((fun c => Ascii.ascii_of_nat (Z.to_nat c)) <$> b) in
  if String.eqb codec "latin1" then Return text
  else if String.eqb codec "ascii" && forallb (fun c => c <? 128) b then Return text
  else Raise UnicodeDecodeError.

Definition sample_codecs : Codecs := {| bytes_decode := sample_decode |}.

Definition sample_nonce : list Z := [1; 2; 3; 4; 5; 6; 7; 8].
Definition sample_random : list Z := [170; 170; 170; 170; 170; 170; 170; 170].

Definition sample_sensor : gmap string obj :=
  {[ "exp" := VInt 1; "scale" := VInt 0; "mantissa" := VList [0; 200] ]}.

Definition sample_sensor_report : gmap string obj :=
  {[ "type" := VInt 1; "value" := VDict sample_sensor ]}.

Definition sample_configuration : gmap string obj :=
  {[ "parameter" := VInt 3;
     "value" := VDict {[ "size" := VInt 2; "value" := VInt 513 ]} ]}.

(** ** Vocabulary of the statements *)

(** A sequence of 16, respectively 8, bytes. *)
Definition block16 (l : list Z) : Prop :=
  length l = 16%nat /\ forallb is_byte l = true.

Definition block8 (l : list Z) : Prop :=
  length l = 8%nat /\ forallb is_byte l = true.

(** A [Crypter] whose two keys are 16 bytes each, as [Crypter.__init__]
    leaves them. *)
Definition Crypter_ok (self : Crypter) : Prop :=
  block16 (_auth_key self) /\ block16 (_crypt_key self).

(** Big-endian bytes of [value], most significant first. *)
Definition be_bytes (value : Z) (n : nat) : list Z :=
  (fun i => Z.land (Z.shiftr value (8 * i)) 0xff) <$> reverse (Z.of_nat <$> seq 0 n).

(** Little-endian bytes of [value], least significant first. *)
Fixpoint le_bytes (value : Z) (n : nat) : list Z :=
  match n with
  | O => []
  | S n' => Z.land value 0xff :: le_bytes (Z.shiftr value 8) n'
  end.

(** The field values that the bytes of a descriptor kind hold faithfully:
    the kinds of a fixed or self-delimiting size, *)
Inductive fits_fixed : string -> obj -> Prop :=
| fits_B (n : Z) : fits_fixed "B" (VInt n)
| fits_W (n : Z) : 0 <= n < 65536 -> fits_fixed "W" (VInt n)
| fits_C (year month day hours mins secs : Z) :
    fits_fixed "C" (VList [year; month; day; hours; mins; secs])
| fits_O (l : list Z) : length l = 8%nat -> fits_fixed "O" (VList l)
| fits_V (size value : Z) :
    0 <= size <= 7 -> 0 <= value < 256 ^ size ->
    fits_fixed "V" (VDict {[ "size" := VInt size; "value" := VInt value ]}).

(** and the kinds that take the rest of the message. *)
Inductive fits_rest : string -> obj -> Prop :=
| fits_D (l : list Z) : fits_rest "D" (VList l)
| fits_L (l : list Z) : fits_rest "L" (VList l)
| fits_R (size value : Z) :
    0 <= size -> 0 <= value < 256 ^ size ->
    fits_rest "R" (VDict {[ "size" := VInt size; "value" := VInt value ]}).

(** [encodable args table]: the descriptors of [table] are of the kinds
    above, one that takes the rest of the message only in the last place,
    and [args] has a fitting value under the name of each. *)
Inductive encodable (args : gmap string obj) : list string -> Prop :=
| encodable_nil : encodable args []
| encodable_rest (t kind : string) (v : obj) :
    str_index t 0 = Return kind -> args !! str_slice t 2 (-1) = Some v ->
    fits_rest kind v -> encodable args [t]
| encodable_cons (t kind : string) (v : obj) (table : list string) :
    str_index t 0 = Return kind -> args !! str_slice t 2 (-1) = Some v ->
    fits_fixed kind v -> encodable args table -> encodable args (t :: table).

Section roundtrip.

Context `{Zwave} `{Codecs}.

(** What a descriptor of kind [kind] with value [v] contributes to the
    message, and what its parse action reads back wherever the bytes
    stand. *)
Definition field_roundtrip (kind : string) (v : obj) (bytes : list Z) : Prop :=
  (forall data, assemble_field kind v data = Return (data ++ bytes)) /\
  is_None v = false /\
  exists action, _PARSE_ACTIONS !! kind = Some action /\
    forall pre post,
      action (pre ++ bytes ++ post) (len pre) = Return (Tuple (len pre + len bytes) v).

(** The same for a kind that takes the rest of the message. *)
Definition rest_roundtrip (kind : string) (v : obj) (bytes : list Z) : Prop :=
  (forall data, assemble_field kind v data = Return (data ++ bytes)) /\
  is_None v = false /\
  exists action, _PARSE_ACTIONS !! kind = Some action /\
    forall pre, action (pre ++ bytes) (len pre) = Return (Tuple (len pre + len bytes) v).

End roundtrip.

(** ** Further definitions

    [_MakeValue] of command.py, and the vocabulary and the samples of the
    further statements. *)

(** [EnqueueMessage] of each of [messages] in turn, as a caller's loop
    [for message in messages: queue.EnqueueMessage(message)] does it. *)
Fixpoint enqueue_all (messages : list (list obj)) : method unit :=
  match messages with
  | [] => mret tt
  | message :: messages' => _ ← EnqueueMessage message; enqueue_all messages'
  end.

(** The number that a sequence of digits to the base 256 stands for, the
    least significant digit first. *)
Fixpoint le_value (digits : list Z) : Z :=
  match digits with
  | [] => 0
  | d :: digits' => d + 256 * le_value digits'
  end.

(** The [while shift >= 0] loop of [_MakeValue]; [fuel] bounds the number
    of rounds, and [_MakeValue] starts it with more than it takes. *)
Fixpoint _MakeValue_loop (fuel : nat) (value shift : Z) (data : list Z) : list Z :=
  match fuel with
  | O => data
  | S fuel' =>
      if shift >=? 0
      then _MakeValue_loop fuel' value (shift - 8)
             (data ++ [Z.land 0xff (Z.shiftr value shift)])
      else data
  end.

Definition _MakeValue (conf value : Z) : result (list Z) :=
  let size := Z.land conf 7 in
  _ ← py_assert ((size =? 1) || (size =? 2) || (size =? 4));
  let shift := (size - 1) * 8 in
  Return (_MakeValue_loop (Z.to_nat (shift + 8)) value shift [conf]).

Definition sample_payload : list Z := [0x20; 0x01; 0xff].

Definition sample_table_more : gmap Z (list string) :=
  list_to_map [
    (0x5904, ["B{group}"; "G{groups}"]);
    (0x9806, ["K{key}"])
  ]%string.

Definition sample_zwave_more : Zwave := {|
  Security := 0x98;
  Security_MessageEncap := 0x81;
  Security_NetworkKeySet := 0x06;
  SUBCMD_TO_PARSE_TABLE := fun key => Return (sample_table_more !! key)
|}.

Definition sample_crypter : Crypter :=
  {| _auth_key := sample_block _DEFAULT_NETWORK_KEY (replicate 16 0x55);
     _crypt_key := sample_block _DEFAULT_NETWORK_KEY (replicate 16 0xaa) |}.

Definition sample_wrapped : list Z :=
  Eval vm_compute in
    match @Wrap sample_cipher sample_crypter sample_payload sample_nonce sample_random
            0x81 1 5 with
    | Return w => w
    | Raise _ => []
    end.

(** * Properties *)

(** ** The run-time conventions *)

Lemma bind_Return {A B} (f : A -> result B) (a : A) :
  (Return a ≫= f) = f a.
Proof. reflexivity. Qed.

Lemma bind_Raise {A B} (f : A -> result B) (e : exn) :
  (Raise e ≫= f) = Raise e.
Proof. reflexivity. Qed.

Lemma len_app {A} (l k : list A) : len (l ++ k) = len l + len k.
Proof. unfold len. rewrite length_app. lia. Qed.

Lemma len_cons {A} (x : A) (l : list A) : len (x :: l) = 1 + len l.
Proof. unfold len. simpl. lia. Qed.

Lemma len_nonneg {A} (l : list A) : 0 <= len l.
Proof. unfold len. lia. Qed.

Lemma py_index_lookup {A} (l : list A) (i : Z) (x : A) :
  0 <= i -> l !! Z.to_nat i = Some x -> py_index l i = Return x.
Proof.
  intros Hi Hx. unfold py_index.
  destruct (i <? 0) eqn:E; [apply Z.ltb_lt in E; lia|].
  rewrite E, Hx. reflexivity.
Qed.

Lemma py_index_in_range {A} (l : list A) (i : Z) :
  0 <= i < len l -> exists x, py_index l i = Return x /\ l !! Z.to_nat i = Some x.
Proof.
  intros Hi. unfold len in Hi.
  destruct (lookup_lt_is_Some_2 l (Z.to_nat i)) as [x Hx]; [lia|].
  exists x. split; [apply py_index_lookup; [lia|exact Hx]|exact Hx].
Qed.

Lemma py_index_out_of_range {A} (l : list A) (i : Z) :
  len l <= i -> py_index l i = Raise IndexError.
Proof.
  intros Hi. pose proof (len_nonneg l). unfold py_index.
  destruct (i <? 0) eqn:E; [apply Z.ltb_lt in E; lia|].
  rewrite E. rewrite lookup_ge_None_2; [reflexivity|unfold len in Hi; lia].
Qed.

Lemma py_bytes_Return (l : list Z) :
  forallb is_byte l = true -> py_bytes l = Return l.
Proof. intros Hl. unfold py_bytes. rewrite Hl. reflexivity. Qed.

Lemma py_slice_prefix {A} (l k : list A) : py_slice (l ++ k) 0 (len l) = l.
Proof.
  unfold py_slice, slice_bound. rewrite len_app.
  pose proof (len_nonneg l). pose proof (len_nonneg k).
  destruct (0 <? 0) eqn:E0; [apply Z.ltb_lt in E0; lia|].
  destruct (len l <? 0) eqn:E1; [apply Z.ltb_lt in E1; lia|].
  rewrite Z.min_l, Z.min_l by lia. simpl. rewrite Z.sub_0_r.
  unfold len. rewrite Nat2Z.id. apply take_app_length.
Qed.

Lemma py_slice_middle {A} (l k r : list A) :
  py_slice (l ++ k ++ r) (len l) (len l + len k) = k.
Proof.
  unfold py_slice, slice_bound. rewrite !len_app.
  pose proof (len_nonneg l). pose proof (len_nonneg k). pose proof (len_nonneg r).
  destruct (len l <? 0) eqn:E0; [apply Z.ltb_lt in E0; lia|].
  destruct (len l + len k <? 0) eqn:E1; [apply Z.ltb_lt in E1; lia|].
  rewrite Z.min_l, Z.min_l by lia.
  replace (len l + len k - len l) with (len k) by lia.
  unfold len. rewrite !Nat2Z.id. rewrite drop_app_length. apply take_app_length.
Qed.

Lemma py_slice_from_suffix {A} (l k : list A) (a : Z) :
  a = len l -> py_slice_from (l ++ k) a = k.
Proof.
  intros ->. unfold py_slice_from, slice_bound. rewrite len_app.
  pose proof (len_nonneg l). pose proof (len_nonneg k).
  destruct (len l <? 0) eqn:E0; [apply Z.ltb_lt in E0; lia|].
  rewrite Z.min_l by lia. unfold len. rewrite Nat2Z.id. apply drop_app_length.
Qed.

Lemma py_slice_from_tail {A} (l k : list A) :
  0 < len k -> py_slice_from (l ++ k) (- len k) = k.
Proof.
  intros Hk. unfold py_slice_from, slice_bound. rewrite len_app.
  pose proof (len_nonneg l).
  destruct (- len k <? 0) eqn:E0; [|apply Z.ltb_ge in E0; lia].
  rewrite Z.max_l by lia. replace (- len k + (len l + len k)) with (len l) by lia.
  unfold len. rewrite Nat2Z.id. apply drop_app_length.
Qed.

Lemma py_index_from_end {A} (l k : list A) (x : A) :
  py_index (l ++ [x] ++ k) (- len k - 1) = Return x.
Proof.
  unfold py_index. rewrite !len_app.
  pose proof (len_nonneg l). pose proof (len_nonneg k).
  change (len [x]) with 1.
  destruct (- len k - 1 <? 0) eqn:E0; [|apply Z.ltb_ge in E0; lia].
  replace (- len k - 1 + (len l + (1 + len k))) with (len l) by lia.
  destruct (len l <? 0) eqn:E1; [apply Z.ltb_lt in E1; lia|].
  unfold len. rewrite Nat2Z.id.
  rewrite lookup_app_r by lia. rewrite Nat.sub_diag. reflexivity.
Qed.

Lemma is_byte_spec (z : Z) : is_byte z = true <-> 0 <= z < 256.
Proof. unfold is_byte. rewrite andb_true_iff, Z.leb_le, Z.ltb_lt. tauto. Qed.

Lemma is_byte_lxor (a b : Z) :
  is_byte a = true -> is_byte b = true -> is_byte (Z.lxor a b) = true.
Proof.
  rewrite !is_byte_spec. intros [Ha Ha'] [Hb Hb'].
  assert (H0: 0 <= Z.lxor a b) by (apply Z.lxor_nonneg; tauto).
  split; [exact H0|].
  destruct (Z.eq_dec (Z.lxor a b) 0) as [->|Hne]; [lia|].
  change 256 with (2 ^ 8). apply Z.log2_lt_pow2; [lia|].
  pose proof (Z.log2_lxor a b Ha Hb) as Hl.
  assert (Z.log2 a < 8).
  { destruct (Z.eq_dec a 0) as [->|]; [simpl; lia|]. apply Z.log2_lt_pow2; lia. }
  assert (Z.log2 b < 8).
  { destruct (Z.eq_dec b 0) as [->|]; [simpl; lia|]. apply Z.log2_lt_pow2; lia. }
  lia.
Qed.

Lemma lxor_high (a n : Z) : 0 <= a < 256 -> 256 <= n -> 256 <= Z.lxor a n.
Proof.
  intros Ha Hn.
  assert (Hs: Z.shiftr (Z.lxor a n) 8 = Z.shiftr n 8).
  { rewrite Z.shiftr_lxor. rewrite (Z.shiftr_div_pow2 a) by lia.
    rewrite Z.div_small by (change (2 ^ 8) with 256; lia). apply Z.lxor_0_l. }
  rewrite !Z.shiftr_div_pow2 in Hs by lia. change (2 ^ 8) with 256 in Hs.
  assert (1 <= n / 256) by (apply Z.div_le_lower_bound; lia).
  destruct (Z.lt_ge_cases (Z.lxor a n) 256) as [Hlt|]; [|lia].
  assert (0 <= Z.lxor a n) by (apply Z.lxor_nonneg; lia).
  rewrite (Z.div_small (Z.lxor a n)) in Hs by lia. lia.
Qed.

Lemma py_range3_bounds (start stop step x : Z) :
  0 < step -> x ∈ py_range3 start stop step -> start <= x < stop.
Proof.
  intros Hstep Hx. unfold py_range3 in Hx.
  apply list_elem_of_fmap in Hx as (k & -> & Hk).
  apply elem_of_seq in Hk.
  destruct (Z.le_gt_cases ((stop - start + step - 1) / step) 0) as [Hle|Hgt].
  { rewrite Z2Nat.nonpos in Hk by lia. lia. }
  assert (Z.of_nat k + 1 <= (stop - start + step - 1) / step) by lia.
  pose proof (Z.mul_div_le (stop - start + step - 1) step Hstep).
  nia.
Qed.

Lemma py_index_app_r {A} (pre l : list A) (i : Z) :
  0 <= i -> py_index (pre ++ l) (len pre + i) = py_index l i.
Proof.
  intros Hi. pose proof (len_nonneg pre). unfold py_index. cbv zeta.
  assert (E1: (len pre + i <? 0) = false) by (apply Z.ltb_ge; lia).
  assert (E2: (i <? 0) = false) by (apply Z.ltb_ge; lia).
  rewrite !E1, !E2.
  rewrite lookup_app_r by (unfold len; lia).
  replace (Z.to_nat (len pre + i) - length pre)%nat with (Z.to_nat i)
    by (unfold len; lia).
  reflexivity.
Qed.

Lemma py_index_app_0 {A} (pre l : list A) :
  py_index (pre ++ l) (len pre) = py_index l 0.
Proof. rewrite <- (Z.add_0_r (len pre)) at 1. apply py_index_app_r. lia. Qed.

Lemma py_slice_app_r {A} (pre l : list A) (a b : Z) :
  0 <= a -> 0 <= b ->
  py_slice (pre ++ l) (len pre + a) (len pre + b) = py_slice l a b.
Proof.
  intros Ha Hb. pose proof (len_nonneg pre). pose proof (len_nonneg l).
  unfold py_slice, slice_bound. cbv zeta. rewrite len_app.
  assert (E1: (len pre + a <? 0) = false) by (apply Z.ltb_ge; lia).
  assert (E2: (len pre + b <? 0) = false) by (apply Z.ltb_ge; lia).
  assert (E3: (a <? 0) = false) by (apply Z.ltb_ge; lia).
  assert (E4: (b <? 0) = false) by (apply Z.ltb_ge; lia).
  rewrite !E1, !E2, !E3, !E4.
  rewrite drop_app_ge by (unfold len in *; lia).
  f_equal; [|f_equal]; unfold len in *; lia.
Qed.

Lemma py_slice_all {A} (l : list A) (b : Z) : len l <= b -> py_slice l 0 b = l.
Proof.
  intros Hb. pose proof (len_nonneg l). unfold py_slice, slice_bound. cbv zeta.
  assert (E1: (b <? 0) = false) by (apply Z.ltb_ge; lia).
  rewrite E1. change (0 <? 0) with false. cbv iota. rewrite Z.min_r by lia. rewrite Z.min_l by lia. rewrite Z.sub_0_r.
  unfold len. rewrite Nat2Z.id. apply firstn_all.
Qed.

Lemma foldl_snoc {A B} (f : B -> A) (l : list B) (init : list A) :
  foldl (fun data i => data ++ [f i]) init l = init ++ (f <$> l).
Proof.
  revert init. induction l as [|x l IH]; intros init; simpl.
  - rewrite app_nil_r. reflexivity.
  - rewrite IH, <- app_assoc. reflexivity.
Qed.

Lemma py_range_of_nat (n : nat) : py_range (Z.of_nat n) = Z.of_nat <$> seq 0 n.
Proof.
  unfold py_range, py_range3.
  replace ((Z.of_nat n - 0 + 1 - 1) / 1) with (Z.of_nat n) by (rewrite Z.div_1_r; lia).
  rewrite Nat2Z.id. apply list_fmap_ext. intros _ k _. lia.
Qed.

Lemma land_255 (x : Z) : Z.land x 0xff = x mod 256.
Proof. change 0xff with (Z.ones 8). rewrite Z.land_ones by lia. reflexivity. Qed.

Lemma py_slice_suffix {A} (l k : list A) (a b : Z) :
  a = len l -> b = len l + len k -> py_slice (l ++ k) a b = k.
Proof.
  intros -> ->. rewrite <- (app_nil_r k) at 1. apply py_slice_middle.
Qed.

Lemma py_slice_middle' {A} (l k r : list A) (a b : Z) :
  a = len l -> b = len l + len k -> py_slice (l ++ k ++ r) a b = k.
Proof. intros -> ->. apply py_slice_middle. Qed.

Lemma be_bytes_S (value : Z) (n : nat) :
  be_bytes value (S n) = Z.land (Z.shiftr value (8 * Z.of_nat n)) 0xff :: be_bytes value n.
Proof.
  unfold be_bytes. rewrite seq_S, fmap_app, reverse_app. reflexivity.
Qed.

Lemma length_be_bytes (value : Z) (n : nat) : length (be_bytes value n) = n.
Proof. unfold be_bytes. rewrite length_fmap, length_reverse, length_fmap, length_seq. reflexivity. Qed.

Lemma forallb_insert {A} (f : A -> bool) (l : list A) (i : nat) (x : A) :
  forallb f l = true -> f x = true -> forallb f (<[i:=x]> l) = true.
Proof.
  revert i. induction l as [|y l IH]; intros i Hl Hx; [reflexivity|].
  simpl in Hl. apply andb_true_iff in Hl as [Hy Hl].
  destruct i as [|i]; simpl; rewrite ?Hx, ?Hy; simpl; auto.
Qed.

Lemma forallb_lookup {A} (f : A -> bool) (l : list A) (i : nat) (x : A) :
  forallb f l = true -> l !! i = Some x -> f x = true.
Proof.
  intros Hl Hx. rewrite forallb_forall in Hl. apply Hl.
  apply list_elem_of_In. eapply list_elem_of_lookup_2, Hx.
Qed.

(** ** command.py *)

Section command_spec.

Context `{Zwave} `{Codecs}.

Lemma ltb_false (a b : Z) : b <= a -> (a <? b) = false.
Proof. intros. apply Z.ltb_ge. assumption. Qed.

Lemma leb_false (a b : Z) : b < a -> (a <=? b) = false.
Proof. intros. apply Z.leb_gt. assumption. Qed.

Lemma py_index_end {A} (m : list A) : py_index m (len m) = Raise IndexError.
Proof. apply py_index_out_of_range. lia. Qed.

Lemma dict_get_Some {K V} `{Countable K} (d : gmap K V) (k : K) (v : V) :
  d !! k = Some v -> dict_get d k = Return v.
Proof. intros Hv. unfold dict_get. rewrite Hv. reflexivity. Qed.

(** *** The signed-integer decoder *)

(** The loop of [_GetSignedValue] on the negative branch adds [~d], which
    is negative, at every byte: the accumulator ends below zero, and the
    function returns a number that is not negative. *)
Lemma _GetSignedValue_loop_negative (data : list Z) :
  forallb is_byte data = true ->
  forall acc, acc <= 0 ->
    foldl (fun value d => Z.shiftl value 8 + Z.lnot d) acc data <= acc - len data.
Proof.
  induction data as [|d data IH]; intros Hb acc Hacc.
  - simpl. change (len []) with 0. lia.
  - simpl in Hb. apply andb_true_iff in Hb as [Hd Hb]. apply is_byte_spec in Hd.
    simpl foldl. rewrite len_cons.
    assert (Hstep: Z.shiftl acc 8 + Z.lnot d <= acc - 1).
    { rewrite Z.shiftl_mul_pow2 by lia. unfold Z.lnot. change (2 ^ 8) with 256. lia. }
    specialize (IH Hb (Z.shiftl acc 8 + Z.lnot d)). lia.
Qed.

Lemma _GetSignedValue_loop_positive (data : list Z) :
  forallb is_byte data = true ->
  forall acc, 0 <= acc ->
    0 <= foldl (fun value d => Z.shiftl value 8 + d) acc data.
Proof.
  induction data as [|d data IH]; intros Hb acc Hacc; [simpl; lia|].
  simpl in Hb. apply andb_true_iff in Hb as [Hd Hb]. apply is_byte_spec in Hd.
  simpl foldl. apply IH; [exact Hb|].
  rewrite Z.shiftl_mul_pow2 by lia. change (2 ^ 8) with 256. lia.
Qed.

Lemma _GetSignedValue_never_negative (data : list Z) (v : Z) :
  forallb is_byte data = true -> _GetSignedValue data = Return v -> 0 <= v.
Proof.
  intros Hb. unfold _GetSignedValue.
  destruct (py_index data 0) as [d0|e] eqn:Hd0; [|discriminate].
  rewrite bind_Return. cbv zeta.
  destruct (negb (Z.land d0 128 =? 0)).
  - intros [= <-].
    pose proof (_GetSignedValue_loop_negative data Hb 0 ltac:(lia)) as Hle.
    destruct data as [|d data]; [discriminate Hd0|].
    rewrite len_cons in Hle. pose proof (len_nonneg data). lia.
  - intros [= <-]. apply _GetSignedValue_loop_positive; [exact Hb|lia].
Qed.

(** C5: the signed-integer decoder is meant to read its bytes as a
    two's-complement number, most significant byte first, so that the bytes
    [0xFF, 0x38] stand for -200.  The code adds the unmasked complement [~d]
    of every byte: on [0xFF, 0x38] it returns 65592, and on [0xFF], the
    encoding of -1, it returns 255.  Only a mantissa whose top bit is clear
    is decoded as the claim says. *)
Theorem GetSignedValue_FF38 :
  _GetSignedValue [0xFF; 0x38] = Return 65592 /\
  _GetSignedValue [0xFF] = Return 255 /\
  _GetSignedValue [0x00; 0xC8] = Return 200.
Proof. repeat split. Qed.

(** *** Decoders on short input *)

Lemma _ParseDate_short (m : list Z) (index : Z) :
  len m < index + 7 -> _ParseDate m index = Return (Int (len m)).
Proof.
  intros Hlen. unfold _ParseDate.
  replace (len m <? index + 7) with true by (symmetry; apply Z.ltb_lt; lia).
  reflexivity.
Qed.

Lemma _ParseValue_no_byte (m : list Z) (index : Z) :
  len m <= index -> _ParseValue m index = Raise IndexError.
Proof.
  intros Hlen. unfold _ParseValue. rewrite py_index_out_of_range by exact Hlen.
  reflexivity.
Qed.

Lemma _ParseStringWithLength_no_byte (m : list Z) (index : Z) :
  len m <= index -> _ParseStringWithLength m index = Raise IndexError.
Proof.
  intros Hlen. unfold _ParseStringWithLength.
  rewrite py_index_out_of_range by exact Hlen. reflexivity.
Qed.

(** C6: every decoder is meant to answer a cursor paired with [None] when
    the bytes that remain are too few.  With the cursor at the end of the
    message, [_ParseDate] answers the bare integer [len(m)], which
    [ParseCommand] cannot unpack, and [_ParseStringWithLength] and
    [_ParseValue] raise [IndexError]; with a size byte that promises more
    than what remains, the latter two return a value read from a truncated
    slice and a cursor beyond the end of the message. *)
Theorem decoders_on_short_input (m : list Z) :
  _ParseDate m (len m) = Return (Int (len m)) /\
  _ParseStringWithLength m (len m) = Raise IndexError /\
  _ParseValue m (len m) = Raise IndexError /\
  _ParseValue [0x70; 0x04; 3; 4] 3
    = Return (Tuple 8 (VDict {[ "size" := VInt 4; "value" := VInt 0 ]})) /\
  _ParseStringWithLength [0x77; 0x01; 5; 65] 2 = Return (Tuple 8 (VBytes [65])).
Proof.
  split; [|split; [|split; [|split]]].
  - apply _ParseDate_short. lia.
  - apply _ParseStringWithLength_no_byte. lia.
  - apply _ParseValue_no_byte. lia.
  - reflexivity.
  - reflexivity.
Qed.

(** *** Unknown commands *)

(** On a message of two bytes or more the outcome on a header without
    descriptors is that of the subscription of the table.  When the
    subscription yields [None], [ParseCommand] returns its marker for an
    unknown command, the empty list. *)
Lemma ParseCommand_lookup_None (m0 m1 : Z) (rest : list Z) :
  SUBCMD_TO_PARSE_TABLE (m0 * 256 + m1) = Return None ->
  ParseCommand (m0 :: m1 :: rest) = Return (VList []).
Proof.
  intros Hnone. unfold ParseCommand, _GetParameterDescriptors.
  replace (len (m0 :: m1 :: rest) <? 2) with false.
  2:{ symmetry. apply Z.ltb_ge. rewrite !len_cons. pose proof (len_nonneg rest). lia. }
  change (py_index (m0 :: m1 :: rest) 0) with (Return m0).
  change (py_index (m0 :: m1 :: rest) 1) with (Return m1).
  rewrite !bind_Return, Hnone. reflexivity.
Qed.

(** Whatever the subscription of the table raises, [ParseCommand] raises. *)
Lemma ParseCommand_lookup_raises (m0 m1 : Z) (rest : list Z) (e : exn) :
  SUBCMD_TO_PARSE_TABLE (m0 * 256 + m1) = Raise e ->
  ParseCommand (m0 :: m1 :: rest) = Raise e.
Proof.
  intros Hraise. unfold ParseCommand, _GetParameterDescriptors.
  replace (len (m0 :: m1 :: rest) <? 2) with false.
  2:{ symmetry. apply Z.ltb_ge. rewrite !len_cons. pose proof (len_nonneg rest). lia. }
  change (py_index (m0 :: m1 :: rest) 0) with (Return m0).
  change (py_index (m0 :: m1 :: rest) 1) with (Return m1).
  rewrite !bind_Return, Hraise. reflexivity.
Qed.

(** *** Assembling and parsing back *)

Lemma _GetIntBigEndian_be_bytes (value : Z) (n : nat) (acc : Z) :
  foldl (fun x i => Z.shiftl x 8 + i) acc (be_bytes value n)
  = acc * 256 ^ Z.of_nat n + value mod 256 ^ Z.of_nat n.
Proof.
  revert acc. induction n as [|n IH]; intros acc.
  - simpl. rewrite Z.mod_1_r. lia.
  - rewrite be_bytes_S. simpl foldl. rewrite IH.
    rewrite Z.shiftl_mul_pow2 by lia. rewrite land_255.
    rewrite Z.shiftr_div_pow2 by lia.
    replace (2 ^ (8 * Z.of_nat n)) with (256 ^ Z.of_nat n)
      by (rewrite Z.pow_mul_r by lia; reflexivity).
    rewrite Nat2Z.inj_succ, Z.pow_succ_r by lia.
    rewrite (Z.mul_comm 256 (256 ^ Z.of_nat n)).
    rewrite (Z.rem_mul_r value (256 ^ Z.of_nat n) 256) by lia.
    change (2 ^ 8) with 256. ring.
Qed.

Lemma assemble_le_bytes (n : nat) :
  forall (value : Z) (data idx : list Z),
    length idx = n ->
    fst (foldl (fun '(data, value) (_ : Z) =>
                  (data ++ [Z.land value 0xff], Z.shiftr value 8)) (data, value) idx)
      = data ++ le_bytes value n.
Proof.
  induction n as [|n IH]; intros value data idx Hidx.
  - destruct idx; [|discriminate]. simpl. rewrite app_nil_r. reflexivity.
  - destruct idx as [|i idx]; [discriminate|]. injection Hidx as Hidx.
    simpl foldl. rewrite IH by exact Hidx. rewrite <- app_assoc. reflexivity.
Qed.

Lemma _GetIntLittleEndian_le_bytes (n : nat) :
  forall (value shift x : Z),
    0 <= shift -> 0 <= value ->
    fst (foldl (fun '(x, shift) i => (x + Z.shiftl i shift, shift + 8)) (x, shift)
               (le_bytes value n))
      = x + Z.shiftl (value mod 256 ^ Z.of_nat n) shift.
Proof.
  induction n as [|n IH]; intros value shift x Hshift Hvalue.
  - simpl. rewrite Z.mod_1_r, Z.shiftl_0_l, Z.add_0_r. reflexivity.
  - simpl le_bytes. simpl foldl.
    rewrite IH by (try lia; apply Z.shiftr_nonneg; lia).
    rewrite land_255, !Z.shiftl_mul_pow2 by lia.
    rewrite (Z.shiftr_div_pow2 value 8) by lia. change (2 ^ 8) with 256.
    rewrite Nat2Z.inj_succ, Z.pow_succ_r by lia.
    rewrite (Z.rem_mul_r value 256 (256 ^ Z.of_nat n)) by lia.
    rewrite Z.pow_add_r by lia. change (2 ^ 8) with 256. ring.
Qed.

Lemma length_le_bytes (n : nat) (value : Z) : length (le_bytes value n) = n.
Proof. revert value. induction n as [|n IH]; intros value; simpl; [|rewrite IH]; reflexivity. Qed.

Lemma roundtrip_B (n : Z) : field_roundtrip "B" (VInt n) [n].
Proof.
  split; [reflexivity|]. split; [reflexivity|].
  exists _ParseByte. split; [reflexivity|]. intros pre post. unfold _ParseByte.
  pose proof (len_nonneg post).
  rewrite leb_false by (rewrite !len_app; change (len [n]) with 1; lia).
  rewrite py_index_app_0. reflexivity.
Qed.

Lemma roundtrip_W (n : Z) :
  0 <= n < 65536 ->
  field_roundtrip "W" (VInt n) [Z.land (Z.shiftr n 8) 0xff; Z.land n 0xff].
Proof.
  intros Hn. split; [reflexivity|]. split; [reflexivity|].
  exists _ParseWord. split; [reflexivity|]. intros pre post. unfold _ParseWord.
  pose proof (len_nonneg post).
  rewrite leb_false by (rewrite !len_app, !len_cons; change (len (@nil Z)) with 0; lia).
  rewrite py_index_app_0, py_index_app_r by lia.
  change (len [Z.land (Z.shiftr n 8) 255; Z.land n 255]) with 2.
  simpl. do 3 f_equal.
  rewrite !land_255, Z.shiftr_div_pow2 by lia. change (2 ^ 8) with 256.
  rewrite (Z.mod_small (n / 256)).
  - pose proof (Z.div_mod n 256). lia.
  - split; [apply Z.div_pos; lia|apply Z.div_lt_upper_bound; lia].
Qed.

Lemma roundtrip_C (year month day hours mins secs : Z) :
  field_roundtrip "C" (VList [year; month; day; hours; mins; secs])
    [year / 256; year mod 256; month; day; hours; mins; secs].
Proof.
  split; [reflexivity|]. split; [reflexivity|].
  exists _ParseDate. split; [reflexivity|]. intros pre post. unfold _ParseDate.
  pose proof (len_nonneg post).
  rewrite ltb_false by (rewrite !len_app, !len_cons; change (len (@nil Z)) with 0; lia).
  rewrite py_index_app_0, !py_index_app_r by lia.
  simpl. do 4 f_equal. pose proof (Z.div_mod year 256). lia.
Qed.

Lemma roundtrip_O (l : list Z) : length l = 8%nat -> field_roundtrip "O" (VList l) l.
Proof.
  intros Hl. split; [reflexivity|]. split; [reflexivity|].
  exists _ParseNonce. split; [reflexivity|]. intros pre post. unfold _ParseNonce.
  pose proof (len_nonneg post). assert (Hl8: len l = 8) by (unfold len; rewrite Hl; reflexivity).
  cbv zeta. rewrite ltb_false by (rewrite !len_app; lia).
  rewrite <- Hl8, py_slice_middle. reflexivity.
Qed.

Lemma roundtrip_V (size value : Z) :
  0 <= size <= 7 -> 0 <= value < 256 ^ size ->
  field_roundtrip "V" (VDict {[ "size" := VInt size; "value" := VInt value ]})
    (size :: be_bytes value (Z.to_nat size)).
Proof.
  intros Hsize Hvalue. split; [|split; [reflexivity|]].
  - intros data.
    change (assemble_field "V" (VDict {[ "size" := VInt size; "value" := VInt value ]}) data)
      with (Return (foldl (fun data i => data ++ [Z.land (Z.shiftr value (8 * i)) 0xff])
                          (data ++ [size]) (reverse (py_range size)))).
    rewrite foldl_snoc, <- app_assoc. do 2 f_equal. simpl. f_equal.
    unfold be_bytes. rewrite <- py_range_of_nat, Z2Nat.id by lia. reflexivity.
  - exists _ParseValue. split; [reflexivity|]. intros pre post. unfold _ParseValue.
    assert (Hbe: len (be_bytes value (Z.to_nat size)) = size)
      by (unfold len; rewrite length_be_bytes; lia).
    assert (Hs: Z.land size 7 = size).
    { change 7 with (Z.ones 3). rewrite Z.land_ones by lia. apply Z.mod_small.
      change (2 ^ 3) with 8. lia. }
    rewrite py_index_app_0. change (py_index ((size :: _) ++ post) 0) with (Return size).
    rewrite bind_Return. cbv zeta. rewrite Hs, len_cons, Hbe.
    replace (py_slice (pre ++ (size :: be_bytes value (Z.to_nat size)) ++ post)
               (len pre + 1) (len pre + 1 + size))
      with (be_bytes value (Z.to_nat size)).
    2:{ symmetry.
        replace (pre ++ (size :: be_bytes value (Z.to_nat size)) ++ post)
          with ((pre ++ [size]) ++ be_bytes value (Z.to_nat size) ++ post)
          by (rewrite <- app_assoc; reflexivity).
        apply py_slice_middle'; rewrite len_app; change (len [size]) with 1; lia. }
    unfold _GetIntBigEndian. rewrite _GetIntBigEndian_be_bytes.
    rewrite Z2Nat.id, Z.mod_small by lia.
    rewrite Z.add_assoc. reflexivity.
Qed.

Lemma roundtrip_D (l : list Z) : rest_roundtrip "D" (VList l) l.
Proof.
  split; [reflexivity|]. split; [reflexivity|].
  exists _ParseDataRest. split; [reflexivity|]. intros pre. unfold _ParseDataRest.
  cbv zeta. rewrite len_app.
  replace (len pre + (len pre + len l - len pre)) with (len pre + len l) by lia.
  rewrite (py_slice_suffix pre l); [reflexivity|reflexivity|lia].
Qed.

Lemma roundtrip_L (l : list Z) : rest_roundtrip "L" (VList l) l.
Proof.
  split; [reflexivity|]. split; [reflexivity|].
  exists _ParseListRest. split; [reflexivity|]. intros pre. unfold _ParseListRest.
  cbv zeta. rewrite len_app.
  replace (len pre + (len pre + len l - len pre)) with (len pre + len l) by lia.
  rewrite (py_slice_suffix pre l); [reflexivity|reflexivity|lia].
Qed.

Lemma roundtrip_R (size value : Z) :
  0 <= size -> 0 <= value < 256 ^ size ->
  rest_roundtrip "R" (VDict {[ "size" := VInt size; "value" := VInt value ]})
    (le_bytes value (Z.to_nat size)).
Proof.
  intros Hsize Hvalue.
  assert (Hb: len (le_bytes value (Z.to_nat size)) = size)
    by (unfold len; rewrite length_le_bytes; lia).
  split; [|split; [reflexivity|]].
  - intros data.
    change (assemble_field "R" (VDict {[ "size" := VInt size; "value" := VInt value ]}) data)
      with (Return (fst (foldl (fun '(data, value) (_ : Z) =>
                                  (data ++ [Z.land value 0xff], Z.shiftr value 8))
                               (data, value) (py_range size)))).
    rewrite (assemble_le_bytes (Z.to_nat size)); [reflexivity|].
    rewrite <- (Z2Nat.id size) at 1 by lia.
    rewrite py_range_of_nat, length_fmap, length_seq. reflexivity.
  - exists _ParseRestLittleEndianInt. split; [reflexivity|]. intros pre.
    unfold _ParseRestLittleEndianInt. cbv zeta. rewrite len_app, Hb.
    replace (len pre + size - len pre) with size by lia.
    rewrite (py_slice_suffix pre (le_bytes value (Z.to_nat size))); [|reflexivity|lia].
    unfold _GetIntLittleEndian.
    rewrite _GetIntLittleEndian_le_bytes by lia.
    rewrite Z2Nat.id, Z.mod_small, Z.shiftl_0_r by lia. reflexivity.
Qed.

Lemma fits_fixed_roundtrip (kind : string) (v : obj) :
  fits_fixed kind v -> exists bytes, field_roundtrip kind v bytes.
Proof.
  intros [n|n Hn|year month day hours mins secs|l Hl|size value Hs Hv].
  - eexists. apply roundtrip_B.
  - eexists. apply roundtrip_W, Hn.
  - eexists. apply roundtrip_C.
  - eexists. apply roundtrip_O, Hl.
  - eexists. apply roundtrip_V; assumption.
Qed.

Lemma fits_rest_roundtrip (kind : string) (v : obj) :
  fits_rest kind v -> exists bytes, rest_roundtrip kind v bytes.
Proof.
  intros [l|l|size value Hs Hv].
  - eexists. apply roundtrip_D.
  - eexists. apply roundtrip_L.
  - eexists. apply roundtrip_R; assumption.
Qed.

Lemma AssembleCommand_loop_cons (t : string) (table : list string)
    (args : gmap string obj) (data : list Z) :
  AssembleCommand_loop (t :: table) args data =
  (kind ← str_index t 0;
   v ← dict_get args (str_slice t 2 (-1));
   data ← assemble_field kind v data;
   AssembleCommand_loop table args data).
Proof. reflexivity. Qed.

Lemma ParseCommand_loop_cons (m : list Z) (t : string) (table : list string)
    (index : Z) (out : gmap string obj) :
  ParseCommand_loop m (t :: table) index out =
  (kind ← str_index t 0;
   action ← dict_get _PARSE_ACTIONS kind;
   r ← action m index;
   '(new_index, value) ← unpack r;
   if is_None value then Return VNone
   else ParseCommand_loop m table new_index (<[str_slice t 2 (-1) := value]> out)).
Proof. reflexivity. Qed.

(** The two loops over an encodable table: the assembler appends some
    bytes, and the parser, started where those bytes begin, reads every
    field back and stops with the dictionary of the values of [args]. *)
Lemma loops_roundtrip (args : gmap string obj) (table : list string) :
  encodable args table ->
  exists bytes,
    (forall data, AssembleCommand_loop table args data = Return (data ++ bytes)) /\
    (forall pre out, exists out',
       ParseCommand_loop (pre ++ bytes) table (len pre) out = Return (VDict out') /\
       (out ⊆ args -> out' ⊆ args) /\
       (forall name,
          is_Some (out !! name) \/ (exists t, t ∈ table /\ str_slice t 2 (-1) = name) ->
          is_Some (out' !! name))).
Proof.
  induction 1 as [|t kind v Hkind Hv Hfits|t kind v table Hkind Hv Hfits Henc IH].
  - exists []. split; [intros data; rewrite app_nil_r; reflexivity|].
    intros pre out. exists out. split; [reflexivity|]. split; [auto|].
    intros name [Hn|(t & Ht & _)]; [exact Hn|]. apply elem_of_nil in Ht. contradiction.
  - destruct (fits_rest_roundtrip kind v Hfits)
      as (bytes & Hasm & Hnone & action & Haction & Hparse).
    exists bytes. split.
    + intros data. rewrite AssembleCommand_loop_cons, Hkind, bind_Return.
      rewrite (dict_get_Some _ _ _ Hv), bind_Return, Hasm. reflexivity.
    + intros pre out. exists (<[str_slice t 2 (-1) := v]> out). split; [|split].
      * rewrite ParseCommand_loop_cons, Hkind, bind_Return.
        rewrite (dict_get_Some _ _ _ Haction), bind_Return, Hparse, bind_Return.
        simpl unpack. rewrite bind_Return, Hnone. reflexivity.
      * intros Hsub. apply insert_subseteq_l; assumption.
      * intros name [Hn|(t' & Ht' & Hname)].
        -- destruct (decide (str_slice t 2 (-1) = name)) as [->|Hne].
           ++ rewrite lookup_insert_eq. eauto.
           ++ rewrite lookup_insert_ne by exact Hne. exact Hn.
        -- apply list_elem_of_singleton in Ht' as ->. rewrite <- Hname.
           rewrite lookup_insert_eq. eauto.
  - destruct (fits_fixed_roundtrip kind v Hfits)
      as (b1 & Hasm & Hnone & action & Haction & Hparse).
    destruct IH as (b2 & IHasm & IHparse).
    exists (b1 ++ b2). split.
    + intros data. rewrite AssembleCommand_loop_cons, Hkind, bind_Return.
      rewrite (dict_get_Some _ _ _ Hv), bind_Return, Hasm, bind_Return.
      rewrite IHasm, <- app_assoc. reflexivity.
    + intros pre out.
      destruct (IHparse (pre ++ b1) (<[str_slice t 2 (-1) := v]> out))
        as (out' & Hloop & Hsub & Hdom).
      exists out'. split; [|split].
      * rewrite ParseCommand_loop_cons, Hkind, bind_Return.
        rewrite (dict_get_Some _ _ _ Haction), bind_Return, Hparse, bind_Return.
        simpl unpack. rewrite bind_Return, Hnone.
        rewrite len_app, <- app_assoc in Hloop. exact Hloop.
      * intros Hout. apply Hsub. apply insert_subseteq_l; assumption.
      * intros name [Hn|(t' & Ht' & Hname)]; apply Hdom.
        -- left. destruct (decide (str_slice t 2 (-1) = name)) as [->|Hne].
           ++ rewrite lookup_insert_eq. eauto.
           ++ rewrite lookup_insert_ne by exact Hne. exact Hn.
        -- apply elem_of_cons in Ht' as [->|Ht'].
           ++ left. rewrite <- Hname, lookup_insert_eq. eauto.
           ++ right. eauto.
Qed.

(** C3, as amended: for a command whose table entry has descriptors of the
    kinds B, W, C, O and V, with at most one descriptor of kind D, L or R
    and that one last, and for an [args] dictionary whose keys are the
    names of the descriptors and whose values fit their kinds (B: an
    integer; W: from 0 to 65535; C: six integers; O: eight integers; V: a
    size from 0 to 7 and a value from 0 to 256^size - 1; D, L: a list of
    integers; R: a size from 0 on and a value from 0 to 256^size - 1),
    parsing the bytes that [AssembleCommand] builds gives back [args]. *)
Theorem ParseCommand_AssembleCommand_roundtrip (cmd0 cmd1 : Z) (table : list string)
    (args : gmap string obj) :
  SUBCMD_TO_PARSE_TABLE (cmd0 * 256 + cmd1) = Return (Some table) ->
  encodable args table ->
  (forall name, is_Some (args !! name) ->
     exists t, t ∈ table /\ str_slice t 2 (-1) = name) ->
  (m ← AssembleCommand cmd0 cmd1 args; ParseCommand m) = Return (VDict args).
Proof.
  intros Htable Henc Hnames.
  destruct (loops_roundtrip args table Henc) as (bytes & Hasm & Hparse).
  unfold AssembleCommand. rewrite Htable, bind_Return, Hasm, bind_Return.
  unfold ParseCommand, _GetParameterDescriptors.
  pose proof (len_nonneg bytes).
  rewrite ltb_false by (rewrite len_app; change (len [cmd0; cmd1]) with 2; lia).
  change (py_index ([cmd0; cmd1] ++ bytes) 0) with (Return cmd0).
  change (py_index ([cmd0; cmd1] ++ bytes) 1) with (Return cmd1).
  rewrite !bind_Return, Htable, bind_Return.
  destruct (Hparse [cmd0; cmd1] ∅) as (out' & Hloop & Hsub & Hdom).
  change (len [cmd0; cmd1]) with 2 in Hloop. rewrite Hloop. do 2 f_equal.
  apply map_eq. intros name.
  specialize (Hsub (map_empty_subseteq _)).
  destruct (args !! name) as [v|] eqn:Hv.
  - destruct (Hdom name) as [v' Hv']; [right; apply Hnames; eauto|].
    rewrite Hv'. pose proof (lookup_weaken _ _ _ _ Hv' Hsub). congruence.
  - destruct (out' !! name) as [v'|] eqn:Hv'; [|reflexivity].
    pose proof (lookup_weaken _ _ _ _ Hv' Hsub). congruence.
Qed.

End command_spec.

(** ** zsecurity.py *)

Ltac split16 l Hl :=
  do 16 (destruct l as [|? l]; [discriminate Hl|]);
  destruct l; [|discriminate Hl].

Lemma xor_block_16 (a0 a1 a2 a3 a4 a5 a6 a7 a8 a9 a10 a11 a12 a13 a14 a15 : Z)
    (b0 b1 b2 b3 b4 b5 b6 b7 b8 b9 b10 b11 b12 b13 b14 b15 : Z) (rest : list Z) :
  xor_block [a0; a1; a2; a3; a4; a5; a6; a7; a8; a9; a10; a11; a12; a13; a14; a15]
    (b0 :: b1 :: b2 :: b3 :: b4 :: b5 :: b6 :: b7 :: b8 :: b9 :: b10 :: b11 ::
     b12 :: b13 :: b14 :: b15 :: rest) 0 (py_range 16)
  = Return [Z.lxor a0 b0; Z.lxor a1 b1; Z.lxor a2 b2; Z.lxor a3 b3;
            Z.lxor a4 b4; Z.lxor a5 b5; Z.lxor a6 b6; Z.lxor a7 b7;
            Z.lxor a8 b8; Z.lxor a9 b9; Z.lxor a10 b10; Z.lxor a11 b11;
            Z.lxor a12 b12; Z.lxor a13 b13; Z.lxor a14 b14; Z.lxor a15 b15].
Proof. reflexivity. Qed.

Lemma py_range3_head (stop step : Z) :
  0 < step -> 0 < stop -> exists xs, py_range3 0 stop step = 0 :: xs.
Proof.
  intros Hstep Hstop. unfold py_range3.
  assert (1 <= (stop - 0 + step - 1) / step).
  { apply Z.div_le_lower_bound; lia. }
  destruct (Z.to_nat ((stop - 0 + step - 1) / step)) as [|n] eqn:E; [lia|].
  simpl. eauto.
Qed.

Section zsecurity_spec.

Context `{BlockCipher} `{Zwave} `{Codecs}.

(** *** The keystream *)

(** The keystream of [Crypt] does not depend on the data: running the loop
    on its own output gives the input back. *)
Lemma Crypt_loop_involutive (c : cipher) (data : list Z) :
  forall (i : Z) (iv out : list Z),
    Crypt_loop c data i iv = Return out -> Crypt_loop c out i iv = Return data.
Proof.
  induction data as [|d data IH]; intros i iv out Hout; simpl in Hout.
  - injection Hout as <-. reflexivity.
  - destruct (if i mod 16 =? 0 then encrypt c iv else Return iv) as [iv'|e] eqn:Eiv;
      [|discriminate].
    rewrite bind_Return in Hout.
    destruct (py_index iv' (i mod 16)) as [k|e] eqn:Ek; [|discriminate].
    rewrite bind_Return in Hout.
    destruct (Crypt_loop c data (i + 1) iv') as [out'|e] eqn:Eout; [|discriminate].
    rewrite bind_Return in Hout. injection Hout as <-.
    simpl. rewrite Eiv, bind_Return, Ek, bind_Return.
    rewrite (IH _ _ _ Eout), bind_Return.
    rewrite Z.lxor_assoc, Z.lxor_nilpotent, Z.lxor_0_r. reflexivity.
Qed.

Lemma Crypt_loop_length (c : cipher) (data : list Z) :
  forall (i : Z) (iv out : list Z),
    Crypt_loop c data i iv = Return out -> length out = length data.
Proof.
  induction data as [|d data IH]; intros i iv out Hout; simpl in Hout.
  - injection Hout as <-. reflexivity.
  - destruct (if i mod 16 =? 0 then encrypt c iv else Return iv) as [iv'|e];
      [|discriminate].
    rewrite bind_Return in Hout.
    destruct (py_index iv' (i mod 16)) as [k|e]; [|discriminate].
    rewrite bind_Return in Hout.
    destruct (Crypt_loop c data (i + 1) iv') as [out'|e] eqn:Eout; [|discriminate].
    injection Hout as <-. simpl. f_equal. eapply IH, Eout.
Qed.

Hypothesis block_ok : cipher_block_ok.

Lemma encrypt_block16 (c : cipher) (b : list Z) :
  block16 (cipher_key c) -> block16 b ->
  exists b', encrypt c b = Return b' /\ block16 b'.
Proof.
  intros [Hk1 Hk2] [Hb1 Hb2]. exists (ecb_encrypt (cipher_key c) b). split.
  - unfold encrypt, len. rewrite Hb1. reflexivity.
  - apply block_ok; assumption.
Qed.

Lemma AES_new_16 (key : list Z) :
  length key = 16%nat -> AES_new key = Return {| cipher_key := key |}.
Proof. intros Hk. unfold AES_new, len. rewrite Hk. reflexivity. Qed.

Lemma Crypt_loop_total (c : cipher) (data : list Z) :
  block16 (cipher_key c) ->
  forall (i : Z) (iv : list Z), block16 iv ->
    exists out, Crypt_loop c data i iv = Return out /\
      (forallb is_byte data = true -> forallb is_byte out = true).
Proof.
  intros Hkey. induction data as [|d data IH]; intros i iv Hiv; simpl.
  - exists []. split; [reflexivity|auto].
  - assert (Hiv': exists iv', (if i mod 16 =? 0 then encrypt c iv else Return iv)
                              = Return iv' /\ block16 iv').
    { destruct (i mod 16 =? 0); [apply encrypt_block16; assumption|eauto]. }
    destruct Hiv' as (iv' & -> & Hiv'). rewrite bind_Return.
    destruct (py_index_in_range iv' (i mod 16)) as (k & -> & Hk).
    { unfold len. destruct Hiv' as [-> _]. apply Z.mod_pos_bound. lia. }
    rewrite bind_Return.
    destruct (IH (i + 1) iv' Hiv') as (out & -> & Hout). rewrite bind_Return.
    eexists. split; [reflexivity|].
    simpl. rewrite !andb_true_iff. intros [Hd Hdata]. split; [|auto].
    apply is_byte_lxor; [exact Hd|].
    destruct Hiv' as [_ Hb]. rewrite forallb_forall in Hb. apply Hb.
    apply list_elem_of_In. eapply list_elem_of_lookup_2, Hk.
Qed.

Lemma Crypt_total (key data iv : list Z) :
  block16 key -> block16 iv ->
  exists out, Crypt key data iv = Return out /\
    length out = length data /\
    (forallb is_byte data = true -> forallb is_byte out = true).
Proof.
  intros Hkey Hiv. unfold Crypt.
  destruct Hkey as [Hk1 Hk2]. destruct Hiv as [Hi1 Hi2].
  unfold len at 1. rewrite Hi1. simpl py_assert. rewrite bind_Return.
  rewrite (py_bytes_Return iv Hi2), bind_Return.
  rewrite (py_bytes_Return key Hk2), bind_Return.
  rewrite (AES_new_16 key Hk1), bind_Return.
  destruct (Crypt_loop_total {| cipher_key := key |} data (conj Hk1 Hk2) 0 iv
              (conj Hi1 Hi2)) as (out & Hout & Hb).
  exists out. split; [exact Hout|]. split; [eapply Crypt_loop_length, Hout|exact Hb].
Qed.

Lemma Crypt_involutive (key data iv out : list Z) :
  Crypt key data iv = Return out -> Crypt key out iv = Return data.
Proof.
  unfold Crypt. intros Hout.
  destruct (py_assert (len iv =? 16)) as [[]|]; [|discriminate].
  rewrite bind_Return in *.
  destruct (py_bytes iv) as [iv'|]; [|discriminate]. rewrite bind_Return in *.
  destruct (py_bytes key) as [k|]; [|discriminate]. rewrite bind_Return in *.
  destruct (AES_new k) as [c|]; [|discriminate]. rewrite bind_Return in *.
  apply Crypt_loop_involutive, Hout.
Qed.

(** C8: [Crypt] is its own inverse.  For a 16-byte key, a 16-byte IV and
    any data, [Crypt] returns, and [Crypt] of what it returned, under the
    same key and IV, is the data. *)
Theorem Crypt_involution (key iv data : list Z) :
  length key = 16%nat -> forallb is_byte key = true ->
  length iv = 16%nat -> forallb is_byte iv = true ->
  (enc ← Crypt key data iv; Crypt key enc iv) = Return data.
Proof.
  intros Hk1 Hk2 Hi1 Hi2.
  destruct (Crypt_total key data iv (conj Hk1 Hk2) (conj Hi1 Hi2)) as (out & Hout & _).
  rewrite Hout, bind_Return. apply Crypt_involutive, Hout.
Qed.

(** *** The MAC *)

Lemma xor_block_total (buf : list Z) (x : Z) (idx : list Z) :
  forallb is_byte buf = true -> 0 <= x -> x + 16 <= len buf ->
  (forall i, i ∈ idx -> 0 <= i < 16) ->
  forall auth, block16 auth ->
    exists auth', xor_block auth buf x idx = Return auth' /\ block16 auth'.
Proof.
  intros Hbuf Hx Hlen. induction idx as [|i idx IH]; intros Hidx auth Hauth; simpl.
  - exists auth. split; [reflexivity|exact Hauth].
  - assert (Hi: 0 <= i < 16) by (apply Hidx; left).
    destruct (py_index_in_range auth i) as (a & -> & Ha).
    { unfold len. destruct Hauth as [-> _]. lia. }
    rewrite bind_Return.
    destruct (py_index_in_range buf (x + i)) as (b & -> & Hb); [lia|].
    rewrite bind_Return. apply IH.
    + intros j Hj. apply Hidx. right. exact Hj.
    + destruct Hauth as [Hl Hbytes]. split.
      * rewrite length_insert. exact Hl.
      * apply forallb_insert; [exact Hbytes|].
        apply is_byte_lxor;
          [exact (forallb_lookup _ _ _ _ Hbytes Ha)|exact (forallb_lookup _ _ _ _ Hbuf Hb)].
Qed.

Lemma py_range_16 :
  py_range 16 = [0; 1; 2; 3; 4; 5; 6; 7; 8; 9; 10; 11; 12; 13; 14; 15].
Proof. reflexivity. Qed.

Lemma ComputeMAC_loop_cons (c : cipher) (buf auth : list Z) (x : Z) (xs : list Z) :
  ComputeMAC_loop c buf auth (x :: xs) =
  (auth1 ← xor_block auth buf x (py_range 16);
   b ← py_bytes auth1;
   auth2 ← encrypt c b;
   ComputeMAC_loop c buf auth2 xs).
Proof. reflexivity. Qed.

Lemma ComputeMAC_loop_total (c : cipher) (buf : list Z) (xs : list Z) :
  block16 (cipher_key c) -> forallb is_byte buf = true ->
  (forall x, x ∈ xs -> 0 <= x /\ x + 16 <= len buf) ->
  forall auth, block16 auth ->
    exists auth', ComputeMAC_loop c buf auth xs = Return auth' /\ block16 auth'.
Proof.
  intros Hkey Hbuf. induction xs as [|x xs IH]; intros Hxs auth Hauth.
  - exists auth. split; [reflexivity|exact Hauth].
  - rewrite ComputeMAC_loop_cons. destruct (Hxs x) as [Hx0 Hx1]; [left|].
    assert (Hidx: forall i, i ∈ py_range 16 -> 0 <= i < 16).
    { rewrite py_range_16. intros i Hi.
      repeat (apply elem_of_cons in Hi as [->|Hi]; [lia|]).
      apply elem_of_nil in Hi. contradiction. }
    destruct (xor_block_total buf x (py_range 16) Hbuf Hx0 Hx1 Hidx auth Hauth)
      as (auth1 & -> & Hauth1).
    rewrite bind_Return.
    rewrite (py_bytes_Return auth1) by apply Hauth1. rewrite bind_Return.
    destruct (encrypt_block16 c auth1 Hkey Hauth1) as (auth2 & -> & Hauth2).
    rewrite bind_Return. apply IH; [|exact Hauth2].
    intros y Hy. apply Hxs. right. exact Hy.
Qed.

Lemma ComputeMAC_total (key data iv : list Z) (sub_command src_node dst_node : Z) :
  block16 key -> block16 iv -> forallb is_byte data = true -> len data < 256 ->
  is_byte sub_command = true -> is_byte src_node = true -> is_byte dst_node = true ->
  exists mac, ComputeMAC key data iv sub_command src_node dst_node = Return mac /\
    length mac = 8%nat.
Proof.
  intros Hkey Hiv Hdata Hlen Hsub Hsrc Hdst. unfold ComputeMAC.
  destruct Hkey as [Hk1 Hk2]. destruct (Hiv) as [Hi1 Hi2].
  replace (len iv =? 16) with true by (unfold len; rewrite Hi1; reflexivity).
  simpl py_assert. rewrite bind_Return.
  rewrite (py_bytes_Return key Hk2), bind_Return.
  rewrite (AES_new_16 key Hk1), bind_Return.
  rewrite (py_bytes_Return iv Hi2), bind_Return.
  set (c := {| cipher_key := key |}).
  assert (Hc: block16 (cipher_key c)) by (split; assumption).
  destruct (encrypt_block16 c iv Hc Hiv) as (auth & -> & Hauth).
  rewrite bind_Return.
  set (buf := [sub_command; src_node; dst_node; len data] ++ data ++ replicate 16 0).
  assert (Hbuf: forallb is_byte buf = true).
  { unfold buf. rewrite !forallb_app. simpl. rewrite Hsub, Hsrc, Hdst, Hdata.
    pose proof (len_nonneg data).
    replace (is_byte (len data)) with true; [reflexivity|].
    symmetry. apply is_byte_spec. lia. }
  destruct (ComputeMAC_loop_total c buf
              (py_range3 0 (len [sub_command; src_node; dst_node; len data] + len data) 16)
              Hc Hbuf) with (auth := auth) as (auth' & -> & Hauth'); [|exact Hauth|].
  { intros x Hx. apply py_range3_bounds in Hx; [|lia].
    unfold buf. rewrite !len_app. change (len (replicate 16 0)) with 16. lia. }
  rewrite bind_Return. eexists. split; [reflexivity|].
  destruct Hauth' as [Hl _]. unfold py_slice, slice_bound, len. rewrite Hl.
  rewrite length_take, length_drop, Hl. reflexivity.
Qed.

Lemma block16_app (random nonce : list Z) :
  block8 random -> block8 nonce -> block16 (random ++ nonce).
Proof.
  intros [Hr1 Hr2] [Hn1 Hn2]. split.
  - rewrite length_app, Hr1, Hn1. reflexivity.
  - rewrite forallb_app, Hr2, Hn2. reflexivity.
Qed.

Lemma Crypter_init_total (key : list Z) :
  length key = 16%nat -> forallb is_byte key = true ->
  exists self, Crypter_init key = Return self /\ Crypter_ok self.
Proof.
  intros Hk1 Hk2. unfold Crypter_init.
  replace (len key =? 16) with true by (unfold len; rewrite Hk1; reflexivity).
  simpl py_assert. rewrite bind_Return.
  rewrite (py_bytes_Return key Hk2), bind_Return.
  rewrite (AES_new_16 key Hk1), bind_Return.
  set (c := {| cipher_key := key |}).
  assert (Hc: block16 (cipher_key c)) by (split; assumption).
  rewrite (py_bytes_Return _AUTH_SECRET) by reflexivity. rewrite bind_Return.
  destruct (encrypt_block16 c _AUTH_SECRET Hc) as (a & -> & Ha);
    [split; reflexivity|].
  rewrite bind_Return.
  rewrite (py_bytes_Return _CRYPT_SECRET) by reflexivity. rewrite bind_Return.
  destruct (encrypt_block16 c _CRYPT_SECRET Hc) as (s & -> & Hs);
    [split; reflexivity|].
  rewrite bind_Return. eexists. split; [reflexivity|]. split; assumption.
Qed.

(** The shape of what [Wrap] returns. *)
Lemma Wrap_total (self : Crypter) (payload nonce random : list Z)
    (sub_command src_node dst_node : Z) :
  Crypter_ok self -> forallb is_byte payload = true -> len payload < 255 ->
  block8 nonce -> block8 random ->
  is_byte sub_command = true -> is_byte src_node = true -> is_byte dst_node = true ->
  exists enc mac n0,
    Wrap self payload nonce random sub_command src_node dst_node
      = Return (random ++ enc ++ [n0] ++ mac) /\
    Crypt (_crypt_key self) (0 :: payload) (random ++ nonce) = Return enc /\
    ComputeMAC (_auth_key self) enc (random ++ nonce) sub_command src_node dst_node
      = Return mac /\
    nonce !! 0%nat = Some n0 /\
    length enc = S (length payload) /\ length mac = 8%nat.
Proof.
  intros [Hauth Hcrypt] Hpayload Hlen Hnonce Hrandom Hsub Hsrc Hdst.
  pose proof (block16_app random nonce Hrandom Hnonce) as Hiv.
  unfold Wrap. destruct (Hrandom) as [Hr1 _]. destruct (Hnonce) as [Hn1 _].
  replace (len random =? 8) with true by (unfold len; rewrite Hr1; reflexivity).
  replace (len nonce =? 8) with true by (unfold len; rewrite Hn1; reflexivity).
  simpl py_assert. rewrite !bind_Return.
  destruct (Crypt_total (_crypt_key self) (0 :: payload) (random ++ nonce)
              Hcrypt Hiv) as (enc & Henc & Hl & Hb).
  rewrite Henc, bind_Return.
  destruct (ComputeMAC_total (_auth_key self) enc (random ++ nonce)
              sub_command src_node dst_node Hauth Hiv) as (mac & Hmac & Hm);
    try assumption.
  { apply Hb. simpl. exact Hpayload. }
  { unfold len in *. rewrite Hl. simpl length. lia. }
  rewrite Hmac, bind_Return.
  destruct (py_index_in_range nonce 0) as (n0 & -> & Hn0).
  { unfold len. rewrite Hn1. lia. }
  rewrite bind_Return. exists enc, mac, n0.
  replace (py_slice (random ++ nonce) 0 8) with random.
  2:{ replace 8 with (len random) by (unfold len; rewrite Hr1; reflexivity).
      symmetry. apply py_slice_prefix. }
  repeat split; assumption.
Qed.

Lemma mac_equal_refl (mac : list Z) : mac_equal mac mac = true.
Proof. induction mac as [|a mac IH]; simpl; [reflexivity|]. rewrite Z.eqb_refl. exact IH. Qed.

(** [Unwrap] on a message of the shape that [Wrap] builds. *)
Lemma Unwrap_of_shape (self : Crypter) (plain nonce random enc mac : list Z)
    (n0 sub_command src_node dst_node : Z) :
  length random = 8%nat -> length mac = 8%nat -> nonce !! 0%nat = Some n0 ->
  Crypt (_crypt_key self) plain (random ++ nonce) = Return enc ->
  ComputeMAC (_auth_key self) enc (random ++ nonce) sub_command src_node dst_node
    = Return mac ->
  Unwrap self (random ++ enc ++ [n0] ++ mac) nonce sub_command src_node dst_node
    = Return (Some (py_slice_from plain 1)).
Proof.
  intros Hr Hm Hn0 Henc Hmac. unfold Unwrap. cbv zeta.
  assert (Hr8: len random = 8) by (unfold len; rewrite Hr; reflexivity).
  assert (Hm8: len mac = 8) by (unfold len; rewrite Hm; reflexivity).
  replace (py_slice (random ++ enc ++ [n0] ++ mac) 0 8) with random
    by (rewrite <- Hr8; symmetry; apply py_slice_prefix).
  replace (py_slice (random ++ enc ++ [n0] ++ mac) 8
             (8 + (len (random ++ enc ++ [n0] ++ mac) - 8 - 8 - 1))) with enc.
  2:{ replace (len (random ++ enc ++ [n0] ++ mac) - 8 - 8 - 1) with (len enc)
        by (rewrite !len_app; change (len [n0]) with 1; lia).
      rewrite <- Hr8. symmetry. apply py_slice_middle. }
  replace (py_slice_from (random ++ enc ++ [n0] ++ mac) (-8)) with mac.
  2:{ replace (-8) with (- len mac) by lia.
      rewrite (app_assoc random), (app_assoc (random ++ enc)).
      symmetry. apply py_slice_from_tail. lia. }
  replace (py_index (random ++ enc ++ [n0] ++ mac) (-9)) with (Return n0).
  2:{ replace (-9) with (- len mac - 1) by lia.
      rewrite (app_assoc random enc). symmetry. apply py_index_from_end. }
  rewrite bind_Return.
  rewrite (py_index_lookup nonce 0 n0) by (try lia; exact Hn0). rewrite bind_Return.
  rewrite Z.eqb_refl. simpl negb. cbv iota.
  rewrite Hmac, bind_Return.
  rewrite mac_equal_refl. simpl negb. cbv iota.
  rewrite (Crypt_involutive _ _ _ _ Henc), bind_Return. reflexivity.
Qed.

(** The header of the MAC holds [len(data)] in one byte. *)
Lemma ComputeMAC_long_data (key data iv : list Z) (sub_command src_node dst_node : Z) :
  block16 key -> block16 iv -> 256 <= len data ->
  ComputeMAC key data iv sub_command src_node dst_node = Raise ValueError.
Proof.
  intros Hkey Hiv Hlen. unfold ComputeMAC.
  destruct (Hkey) as [Hk1 Hk2]. destruct (Hiv) as [Hi1 Hi2].
  replace (len iv =? 16) with true by (unfold len; rewrite Hi1; reflexivity).
  simpl py_assert. rewrite bind_Return. cbv zeta.
  rewrite (py_bytes_Return key Hk2), bind_Return.
  rewrite (AES_new_16 key Hk1), bind_Return.
  rewrite (py_bytes_Return iv Hi2), bind_Return.
  set (c := {| cipher_key := key |}).
  destruct (encrypt_block16 c iv Hkey Hiv) as (auth & -> & [Ha1 Ha2]).
  rewrite bind_Return.
  destruct (py_range3_head (len [sub_command; src_node; dst_node; len data] + len data) 16)
    as (xs & ->); [lia| |].
  { pose proof (len_nonneg data). change (len [sub_command; src_node; dst_node; len data]) with 4. lia. }
  rewrite ComputeMAC_loop_cons.
  assert (Hd: (12 <= length data)%nat) by (unfold len in Hlen; lia).
  set (n := len data) in *. clearbody n.
  split16 auth Ha1.
  do 12 (destruct data as [|? data]; [simpl in Hd; lia|]).
  cbn [app]. rewrite xor_block_16, bind_Return.
  unfold py_bytes. cbn [forallb].
  match goal with
  | |- context [is_byte (Z.lxor ?a n)] =>
      replace (is_byte (Z.lxor a n)) with false;
        [rewrite !andb_false_r; reflexivity|];
      symmetry; apply not_true_is_false; rewrite is_byte_spec;
      cbn [forallb] in Ha2; rewrite !andb_true_iff in Ha2;
      destruct Ha2 as (_ & _ & _ & Hz & _); apply is_byte_spec in Hz;
      pose proof (lxor_high a n Hz Hlen); lia
  end.
Qed.

(** [Wrap] of a payload of 255 bytes or more raises, whatever the cipher. *)
Lemma Wrap_long_payload (self : Crypter) (payload nonce random : list Z)
    (sub_command src_node dst_node : Z) :
  Crypter_ok self -> block8 nonce -> block8 random -> 255 <= len payload ->
  Wrap self payload nonce random sub_command src_node dst_node = Raise ValueError.
Proof.
  intros [Hauth Hcrypt] Hnonce Hrandom Hlen.
  pose proof (block16_app random nonce Hrandom Hnonce) as Hiv.
  unfold Wrap. destruct (Hrandom) as [Hr1 _]. destruct (Hnonce) as [Hn1 _].
  replace (len random =? 8) with true by (unfold len; rewrite Hr1; reflexivity).
  replace (len nonce =? 8) with true by (unfold len; rewrite Hn1; reflexivity).
  simpl py_assert. rewrite !bind_Return. cbv zeta.
  destruct (Crypt_total (_crypt_key self) (0 :: payload) (random ++ nonce)
              Hcrypt Hiv) as (enc & -> & Hl & _).
  rewrite bind_Return.
  rewrite ComputeMAC_long_data; [reflexivity|assumption|assumption|].
  unfold len in *. rewrite Hl. simpl length. lia.
Qed.

Lemma Unwrap_Wrap (self : Crypter) (payload nonce random : list Z)
    (sub_command src_node dst_node : Z) :
  Crypter_ok self -> forallb is_byte payload = true -> len payload < 255 ->
  block8 nonce -> block8 random ->
  is_byte sub_command = true -> is_byte src_node = true -> is_byte dst_node = true ->
  (wrapped ← Wrap self payload nonce random sub_command src_node dst_node;
   Unwrap self wrapped nonce sub_command src_node dst_node) = Return (Some payload).
Proof.
  intros Hself Hpayload Hlen Hnonce Hrandom Hsub Hsrc Hdst.
  destruct (Wrap_total self payload nonce random sub_command src_node dst_node)
    as (enc & mac & n0 & -> & Henc & Hmac & Hn0 & _ & Hm); try assumption.
  rewrite bind_Return.
  rewrite (Unwrap_of_shape self (0 :: payload) nonce random enc mac n0
             sub_command src_node dst_node); try assumption; [|apply Hrandom].
  do 2 f_equal. apply (py_slice_from_suffix [0] payload 1). reflexivity.
Qed.

(** C4: for a 16-byte key, a payload of 0, 1, 15, 16, 17 or 33 bytes, an
    8-byte nonce, an 8-byte random seed and header bytes, [Unwrap] of what
    [Wrap] returns, with the same nonce and header, returns the payload. *)
Theorem Unwrap_Wrap_roundtrip (key payload nonce random : list Z)
    (sub_command src_node dst_node : Z) :
  length key = 16%nat -> forallb is_byte key = true ->
  In (length payload) [0; 1; 15; 16; 17; 33]%nat ->
  forallb is_byte payload = true ->
  length nonce = 8%nat -> forallb is_byte nonce = true ->
  length random = 8%nat -> forallb is_byte random = true ->
  is_byte sub_command = true -> is_byte src_node = true -> is_byte dst_node = true ->
  (self ← Crypter_init key;
   wrapped ← Wrap self payload nonce random sub_command src_node dst_node;
   Unwrap self wrapped nonce sub_command src_node dst_node) = Return (Some payload).
Proof.
  intros Hk1 Hk2 Hlen Hpayload Hn1 Hn2 Hr1 Hr2 Hsub Hsrc Hdst.
  destruct (Crypter_init_total key Hk1 Hk2) as (self & -> & Hself).
  rewrite bind_Return. apply Unwrap_Wrap; try assumption; try (split; assumption).
  unfold len. simpl in Hlen. lia.
Qed.


(** *** The queue of a node *)

(** What [ProcessReceivedNonce] does on every object: the nonce is
    recorded; without a queue the read of the attribute raises; and the test
    on the length of the queue lets the call go on only when the queue is
    empty, where [pop(0)] raises. *)
Lemma ProcessReceivedNonce_eval (nonce : Nonce) (self : SecureQueue) :
  ProcessReceivedNonce nonce self =
  (match _queue self with
   | None => Raise AttributeError
   | Some [] => Raise IndexError
   | Some (_ :: _) => Return None
   end, set_nonce_outbound nonce self).
Proof.
  unfold ProcessReceivedNonce, mbind, method_bind, setattr, getattr. simpl.
  destruct (_queue self) as [[|cmd queue]|] eqn:E.
  - simpl. unfold queue_pop0, mbind, method_bind, getattr. simpl. rewrite E. reflexivity.
  - reflexivity.
  - reflexivity.
Qed.

(** C1: [ProcessReceivedNonce] is meant to answer nothing on an empty queue
    and otherwise to take the oldest message off the queue and return it
    wrapped.  The code does neither: with a message queued it returns
    [None] and leaves the queue as it is, and on the empty queue it raises
    [IndexError]; either way it only records the nonce. *)
Theorem ProcessReceivedNonce_inverted_guard (nonce : Nonce) (self : SecureQueue)
    (cmd : list obj) (queue : list (list obj)) :
  ProcessReceivedNonce nonce (set_queue (cmd :: queue) self)
    = (Return None, set_nonce_outbound nonce (set_queue (cmd :: queue) self)) /\
  ProcessReceivedNonce nonce (set_queue [] self)
    = (Raise IndexError, set_nonce_outbound nonce (set_queue [] self)).
Proof. split; apply ProcessReceivedNonce_eval. Qed.

(** C7: a queued key-rotation command is meant to be sent wrapped under
    the old key, and the key replaced afterwards.  In the code [SetKey]
    raises [NameError] on every key and changes nothing,
    [ProcessReceivedNonce] never changes the crypter, and with a
    [NetworkKeySet] command at the head of the queue it returns [None]:
    nothing is wrapped and no key is replaced. *)
Theorem key_rotation_never_happens :
  (forall (key : obj) (self : SecureQueue), SetKey key self = (Raise NameError, self)) /\
  (forall (nonce : Nonce) (self : SecureQueue),
     _crypter (snd (ProcessReceivedNonce nonce self)) = _crypter self) /\
  (forall (nonce : Nonce) (self : SecureQueue) (key : list Z) (queue : list (list obj)),
     fst (ProcessReceivedNonce nonce
            (set_queue ([VInt Security; VInt Security_NetworkKeySet; VList key] :: queue)
                       self))
     = Return None).
Proof.
  split; [|split].
  - reflexivity.
  - intros nonce self. rewrite ProcessReceivedNonce_eval. reflexivity.
  - intros nonce self key queue. rewrite ProcessReceivedNonce_eval. reflexivity.
Qed.

(** [EnqueueMessage] on every object: without a queue the read of the
    attribute raises and nothing changes; with one the message is appended
    to it. *)
Lemma EnqueueMessage_eval (message : list obj) (self : SecureQueue) :
  EnqueueMessage message self =
  match _queue self with
  | None => (Raise AttributeError, self)
  | Some queue => (Return tt, set_queue (queue ++ [message]) self)
  end.
Proof.
  unfold EnqueueMessage, mbind, method_bind, getattr, setattr.
  destruct (_queue self); reflexivity.
Qed.

(** C10: [EnqueueMessage] is meant to append the message to the queue of
    every session and to change nothing else.  On the object that
    [SecureQueue()] constructs it raises [AttributeError] and queues
    nothing: no statement has assigned [_queue], the set-up method being
    named [__init].  Only on an object that was given a queue does it
    return, with the message appended behind the messages already queued
    and every other attribute as it was. *)
Theorem EnqueueMessage_needs_queue (message : list obj) :
  EnqueueMessage message SecureQueue_new = (Raise AttributeError, SecureQueue_new) /\
  forall (self : SecureQueue) (queue : list (list obj)),
    exists self',
      EnqueueMessage message (set_queue queue self) = (Return tt, self') /\
      _queue self' = Some (queue ++ [message]) /\
      _crypter self' = _crypter self /\
      _security self' = _security self /\
      _nonce_outbound self' = _nonce_outbound self /\
      _nonce_outbound_requested self' = _nonce_outbound_requested self /\
      _node self' = _node self /\
      _controller_node self' = _controller_node self /\
      _controller self' = _controller self.
Proof.
  split.
  - apply EnqueueMessage_eval.
  - intros self queue. exists (set_queue (queue ++ [message]) self).
    split; [apply EnqueueMessage_eval|]. repeat split.
Qed.

End zsecurity_spec.

(** ** The statements on the sample instances *)

Lemma sample_block_bytes (key block : list Z) :
  forallb is_byte (sample_block key block) = true.
Proof.
  unfold sample_block. revert block.
  induction key as [|k key IH]; intros [|b block]; simpl; try reflexivity.
  rewrite IH, andb_true_r. apply is_byte_spec. apply Z.mod_pos_bound. lia.
Qed.

Lemma sample_cipher_block_ok : @cipher_block_ok sample_cipher.
Proof.
  intros key block Hk _ Hb _. split; [|apply sample_block_bytes].
  simpl. unfold sample_block. rewrite length_zip_with, Hk, Hb. reflexivity.
Qed.

(** On the sample table, a date cut short makes [ParseCommand] raise. *)
Lemma ParseCommand_date_raises :
  @ParseCommand sample_zwave sample_codecs [0x8A; 0x02; 1; 2; 3] = Raise TypeError.
Proof. vm_compute. reflexivity. Qed.

(** C3 as stated fails: the sensor reading of exponent 1 and mantissa
    [0, 200] is assembled into the bytes [0x22, 0, 200], and parsing them
    gives a dictionary with the further key [_value]. *)
Lemma ParseCommand_AssembleCommand_counterexample :
  @AssembleCommand sample_zwave 0x31 0x05 sample_sensor_report
    = Return [0x31; 0x05; 1; 0x22; 0; 200] /\
  @ParseCommand sample_zwave sample_codecs [0x31; 0x05; 1; 0x22; 0; 200]
    = Return (VDict {[ "type" := VInt 1;
                       "value" := VDict (<["_value" := VFloat 200 10]> sample_sensor) ]}) /\
  (m ← @AssembleCommand sample_zwave 0x31 0x05 sample_sensor_report;
   @ParseCommand sample_zwave sample_codecs m) <> Return (VDict sample_sensor_report).
Proof.
  split; [|split].
  - vm_compute. reflexivity.
  - vm_compute. reflexivity.
  - intros E. vm_compute in E. discriminate E.
Qed.

Lemma ParseCommand_AssembleCommand_roundtrip_witness :
  (m ← @AssembleCommand sample_zwave 0x70 0x04 sample_configuration;
   @ParseCommand sample_zwave sample_codecs m) = Return (VDict sample_configuration).
Proof.
  apply (@ParseCommand_AssembleCommand_roundtrip sample_zwave sample_codecs 0x70 0x04
           ["B{parameter}"; "V{value}"]).
  - reflexivity.
  - eapply (encodable_cons _ _ "B" (VInt 3)); [reflexivity|reflexivity|constructor|].
    eapply (encodable_cons _ _ "V" (VDict {[ "size" := VInt 2; "value" := VInt 513 ]}));
      [reflexivity|reflexivity|constructor; lia|].
    apply encodable_nil.
  - intros name [v Hv]. unfold sample_configuration in Hv.
    destruct (decide (name = "parameter")) as [->|Hn1].
    + exists "B{parameter}". split; [left|reflexivity].
    + rewrite lookup_insert_ne in Hv by congruence.
      destruct (decide (name = "value")) as [->|Hn2].
      * exists "V{value}". split; [right; left|reflexivity].
      * rewrite lookup_singleton_ne in Hv by congruence. discriminate.
Defined.

Lemma Crypt_involution_witness :
  (enc ← @Crypt sample_cipher _DEFAULT_NETWORK_KEY [0x20; 0x01; 0xff]
           (sample_random ++ sample_nonce);
   @Crypt sample_cipher _DEFAULT_NETWORK_KEY enc (sample_random ++ sample_nonce))
  = Return [0x20; 0x01; 0xff].
Proof.
  apply (@Crypt_involution sample_cipher sample_cipher_block_ok); reflexivity.
Defined.

Lemma Unwrap_Wrap_roundtrip_witness :
  (self ← @Crypter_init sample_cipher _DEFAULT_NETWORK_KEY;
   wrapped ← @Wrap sample_cipher self [0x20; 0x01; 0xff; 1; 2; 3; 4; 5; 6; 7; 8; 9; 10; 11; 12]
               sample_nonce sample_random 0x81 1 5;
   @Unwrap sample_cipher self wrapped sample_nonce 0x81 1 5)
  = Return (Some [0x20; 0x01; 0xff; 1; 2; 3; 4; 5; 6; 7; 8; 9; 10; 11; 12]).
Proof.
  apply (@Unwrap_Wrap_roundtrip sample_cipher sample_cipher_block_ok);
    try reflexivity.
  simpl. tauto.
Defined.



(** * Further properties *)

(** ** Further properties of zsecurity.py *)

Section zsecurity_stream.

Context `{BlockCipher} `{Zwave} `{Codecs}.

Lemma Crypt_loop_keystream (c : cipher) (data : list Z) :
  forall (i : Z) (iv out : list Z),
    Crypt_loop c data i iv = Return out ->
    exists ks,
      Crypt_loop c (replicate (length data) 0) i iv = Return ks /\
      out = zip_with Z.lxor data ks.
Proof.
  induction data as [|d data IH]; intros i iv out Hout; simpl in Hout.
  - injection Hout as <-. exists []. split; reflexivity.
  - destruct (if i mod 16 =? 0 then encrypt c iv else Return iv) as [iv'|e] eqn:Eiv;
      [|discriminate].
    rewrite bind_Return in Hout.
    destruct (py_index iv' (i mod 16)) as [k|e] eqn:Ek; [|discriminate].
    rewrite bind_Return in Hout.
    destruct (Crypt_loop c data (i + 1) iv') as [out'|e] eqn:Eout; [|discriminate].
    rewrite bind_Return in Hout. injection Hout as <-.
    destruct (IH _ _ _ Eout) as (ks & Hks & ->).
    exists (k :: ks). simpl. rewrite Eiv, bind_Return, Ek, bind_Return, Hks, bind_Return.
    split; reflexivity.
Qed.

Lemma Crypt_loop_prefix (c : cipher) (a b : list Z) :
  forall (i : Z) (iv out : list Z),
    Crypt_loop c (a ++ b) i iv = Return out ->
    Crypt_loop c a i iv = Return (take (length a) out).
Proof.
  induction a as [|d a IH]; intros i iv out Hout; [reflexivity|].
  simpl in Hout. simpl Crypt_loop.
  destruct (if i mod 16 =? 0 then encrypt c iv else Return iv) as [iv'|e] eqn:Eiv;
    [|discriminate].
  rewrite bind_Return in *.
  destruct (py_index iv' (i mod 16)) as [k|e] eqn:Ek; [|discriminate].
  rewrite bind_Return in *.
  destruct (Crypt_loop c (a ++ b) (i + 1) iv') as [out'|e] eqn:Eout; [|discriminate].
  rewrite bind_Return in Hout. injection Hout as <-.
  rewrite (IH _ _ _ Eout), bind_Return. reflexivity.
Qed.

Hypothesis block_ok : cipher_block_ok.

(** X1: [Crypt] is the exclusive-or with a keystream that the key, the IV
    and the length fix: under a 16-byte key and IV its output on [data] is
    [data] xor-ed, element by element, with its output on as many zeros. *)
Theorem Crypt_xor_keystream (key iv data : list Z) :
  length key = 16%nat -> forallb is_byte key = true ->
  length iv = 16%nat -> forallb is_byte iv = true ->
  exists ks,
    Crypt key (replicate (length data) 0) iv = Return ks /\
    length ks = length data /\
    Crypt key data iv = Return (zip_with Z.lxor data ks).
Proof.
  intros Hk1 Hk2 Hi1 Hi2.
  destruct (Crypt_total block_ok key data iv (conj Hk1 Hk2) (conj Hi1 Hi2))
    as (out & Hout & Hlen & _).
  destruct (Crypt_total block_ok key (replicate (length data) 0) iv
              (conj Hk1 Hk2) (conj Hi1 Hi2)) as (ks & Hks & Hl & _).
  exists ks. split; [exact Hks|]. split; [rewrite Hl; apply length_replicate|].
  rewrite Hout. f_equal. revert Hout Hks. unfold Crypt.
  destruct (py_assert (len iv =? 16)) as [[]|]; [|discriminate].
  rewrite !bind_Return.
  destruct (py_bytes iv) as [iv'|]; [|discriminate]. rewrite !bind_Return.
  destruct (py_bytes key) as [k|]; [|discriminate]. rewrite !bind_Return.
  destruct (AES_new k) as [c|]; [|discriminate]. rewrite !bind_Return.
  intros Hout Hks.
  destruct (Crypt_loop_keystream c data 0 iv' out Hout) as (ks' & Hks' & ->).
  congruence.
Qed.

(** X2: [Crypt] works from left to right: under a 16-byte key and IV its
    output on [a ++ b] starts with its output on [a]. *)
Theorem Crypt_of_prefix (key iv a b : list Z) :
  length key = 16%nat -> forallb is_byte key = true ->
  length iv = 16%nat -> forallb is_byte iv = true ->
  exists ea eb,
    Crypt key a iv = Return ea /\ length ea = length a /\
    Crypt key (a ++ b) iv = Return (ea ++ eb).
Proof.
  intros Hk1 Hk2 Hi1 Hi2.
  destruct (Crypt_total block_ok key (a ++ b) iv (conj Hk1 Hk2) (conj Hi1 Hi2))
    as (out & Hout & Hlen & _).
  exists (take (length a) out), (drop (length a) out).
  rewrite take_drop. split; [|split; [|exact Hout]].
  - revert Hout. unfold Crypt.
    destruct (py_assert (len iv =? 16)) as [[]|]; [|discriminate].
    rewrite !bind_Return.
    destruct (py_bytes iv) as [iv'|]; [|discriminate]. rewrite !bind_Return.
    destruct (py_bytes key) as [k|]; [|discriminate]. rewrite !bind_Return.
    destruct (AES_new k) as [c|]; [|discriminate]. rewrite !bind_Return.
    apply Crypt_loop_prefix.
  - rewrite length_take, Hlen, length_app. lia.
Qed.

(** X3: on bytes, with a 16-byte key and IV, [ComputeMAC] returns a tag of
    8 elements when the data has at most 255 elements, and raises
    [ValueError] when it has more: the length is one byte of the header. *)
Theorem ComputeMAC_tag_or_ValueError (key data iv : list Z)
    (sub_command src_node dst_node : Z) :
  length key = 16%nat -> forallb is_byte key = true ->
  length iv = 16%nat -> forallb is_byte iv = true ->
  forallb is_byte data = true ->
  is_byte sub_command = true -> is_byte src_node = true -> is_byte dst_node = true ->
  if len data <? 256
  then exists mac, ComputeMAC key data iv sub_command src_node dst_node = Return mac /\
         length mac = 8%nat
  else ComputeMAC key data iv sub_command src_node dst_node = Raise ValueError.
Proof.
  intros Hk1 Hk2 Hi1 Hi2 Hdata Hsub Hsrc Hdst.
  destruct (len data <? 256) eqn:E.
  - apply Z.ltb_lt in E. apply ComputeMAC_total; try assumption; split; assumption.
  - apply Z.ltb_ge in E. apply ComputeMAC_long_data; try assumption; split; assumption.
Qed.

(** X4: [Unwrap] gives back the payload of [Wrap], under the same nonce and
    header bytes, for every payload of at most 254 bytes. *)
Theorem Unwrap_Wrap_up_to_254 (key payload nonce random : list Z)
    (sub_command src_node dst_node : Z) :
  length key = 16%nat -> forallb is_byte key = true ->
  (length payload <= 254)%nat -> forallb is_byte payload = true ->
  length nonce = 8%nat -> forallb is_byte nonce = true ->
  length random = 8%nat -> forallb is_byte random = true ->
  is_byte sub_command = true -> is_byte src_node = true -> is_byte dst_node = true ->
  (self ← Crypter_init key;
   wrapped ← Wrap self payload nonce random sub_command src_node dst_node;
   Unwrap self wrapped nonce sub_command src_node dst_node) = Return (Some payload).
Proof.
  intros Hk1 Hk2 Hlen Hpayload Hn1 Hn2 Hr1 Hr2 Hsub Hsrc Hdst.
  destruct (Crypter_init_total block_ok key Hk1 Hk2) as (self & -> & Hself).
  rewrite bind_Return. apply Unwrap_Wrap; try assumption; try (split; assumption).
  unfold len. lia.
Qed.

(** X5: [Wrap] raises [ValueError] on every payload of 255 elements or
    more. *)
Theorem Wrap_rejects_long_payload (key payload nonce random : list Z)
    (sub_command src_node dst_node : Z) :
  length key = 16%nat -> forallb is_byte key = true ->
  (255 <= length payload)%nat ->
  length nonce = 8%nat -> forallb is_byte nonce = true ->
  length random = 8%nat -> forallb is_byte random = true ->
  (self ← Crypter_init key;
   Wrap self payload nonce random sub_command src_node dst_node) = Raise ValueError.
Proof.
  intros Hk1 Hk2 Hlen Hn1 Hn2 Hr1 Hr2.
  destruct (Crypter_init_total block_ok key Hk1 Hk2) as (self & -> & Hself).
  rewrite bind_Return. apply Wrap_long_payload; try assumption; try (split; assumption).
  unfold len. lia.
Qed.

End zsecurity_stream.

Lemma mac_equal_insert (mac : list Z) (i : nat) (x : Z) :
  (i < length mac)%nat -> mac !! i <> Some x ->
  mac_equal mac (<[i:=x]> mac) = false.
Proof.
  revert i. induction mac as [|a mac IH]; intros i Hi Hx; [simpl in Hi; lia|].
  destruct i as [|i]; simpl.
  - destruct (a =? x) eqn:E; [|reflexivity].
    apply Z.eqb_eq in E. subst. contradiction Hx. reflexivity.
  - rewrite Z.eqb_refl. apply IH; [simpl in Hi; lia|exact Hx].
Qed.

Lemma py_index_short {A} (l : list A) (i : Z) :
  i < 0 -> len l < - i -> py_index l i = Raise IndexError.
Proof.
  intros Hi Hl. unfold py_index. cbv zeta.
  replace (i <? 0) with true by (symmetry; apply Z.ltb_lt; lia).
  replace (i + len l <? 0) with true by (symmetry; apply Z.ltb_lt; lia).
  reflexivity.
Qed.

Section zsecurity_unwrap.

Context `{BlockCipher} `{Zwave} `{Codecs}.

(** [Unwrap] on a message with the layout of [Wrap] and any eight bytes in
    the place of the MAC. *)
Lemma Unwrap_of_layout (self : Crypter) (nonce random enc mac mac' : list Z)
    (n0 sub_command src_node dst_node : Z) :
  length random = 8%nat -> length mac' = 8%nat -> nonce !! 0%nat = Some n0 ->
  ComputeMAC (_auth_key self) enc (random ++ nonce) sub_command src_node dst_node
    = Return mac ->
  mac_equal mac mac' = false ->
  Unwrap self (random ++ enc ++ [n0] ++ mac') nonce sub_command src_node dst_node
    = Return None.
Proof.
  intros Hr Hm Hn0 Hmac Hne. unfold Unwrap. cbv zeta.
  assert (Hr8: len random = 8) by (unfold len; rewrite Hr; reflexivity).
  assert (Hm8: len mac' = 8) by (unfold len; rewrite Hm; reflexivity).
  replace (py_slice (random ++ enc ++ [n0] ++ mac') 0 8) with random
    by (rewrite <- Hr8; symmetry; apply py_slice_prefix).
  replace (py_slice (random ++ enc ++ [n0] ++ mac') 8
             (8 + (len (random ++ enc ++ [n0] ++ mac') - 8 - 8 - 1))) with enc.
  2:{ replace (len (random ++ enc ++ [n0] ++ mac') - 8 - 8 - 1) with (len enc)
        by (rewrite !len_app; change (len [n0]) with 1; lia).
      rewrite <- Hr8. symmetry. apply py_slice_middle. }
  replace (py_slice_from (random ++ enc ++ [n0] ++ mac') (-8)) with mac'.
  2:{ replace (-8) with (- len mac') by lia.
      rewrite (app_assoc random), (app_assoc (random ++ enc)).
      symmetry. apply py_slice_from_tail. lia. }
  replace (py_index (random ++ enc ++ [n0] ++ mac') (-9)) with (Return n0).
  2:{ replace (-9) with (- len mac' - 1) by lia.
      rewrite (app_assoc random enc). symmetry. apply py_index_from_end. }
  rewrite bind_Return.
  rewrite (py_index_lookup nonce 0 n0) by (try lia; exact Hn0). rewrite bind_Return.
  rewrite Z.eqb_refl. simpl negb. cbv iota.
  rewrite Hmac, bind_Return, Hne. reflexivity.
Qed.

Hypothesis block_ok : cipher_block_ok.

(** X6: [Unwrap] returns [None] on a wrapped message in which one of the
    eight MAC bytes was replaced by another value. *)
Theorem Unwrap_rejects_altered_mac (key payload nonce random : list Z)
    (sub_command src_node dst_node : Z) (i : nat) (x : Z) (self : Crypter)
    (wrapped : list Z) :
  length key = 16%nat -> forallb is_byte key = true ->
  (length payload <= 254)%nat -> forallb is_byte payload = true ->
  length nonce = 8%nat -> forallb is_byte nonce = true ->
  length random = 8%nat -> forallb is_byte random = true ->
  is_byte sub_command = true -> is_byte src_node = true -> is_byte dst_node = true ->
  Crypter_init key = Return self ->
  Wrap self payload nonce random sub_command src_node dst_node = Return wrapped ->
  (i < 8)%nat -> wrapped !! (length payload + 10 + i)%nat <> Some x ->
  Unwrap self (<[(length payload + 10 + i)%nat := x]> wrapped) nonce
    sub_command src_node dst_node = Return None.
Proof.
  intros Hk1 Hk2 Hlen Hpayload Hn1 Hn2 Hr1 Hr2 Hsub Hsrc Hdst Hinit Hwrap Hi Hx.
  destruct (Crypter_init_total block_ok key Hk1 Hk2) as (self' & Hinit' & Hself).
  rewrite Hinit in Hinit'. injection Hinit' as <-.
  destruct (Wrap_total block_ok self payload nonce random sub_command src_node dst_node)
    as (enc & mac & n0 & Hw & Henc & Hmac & Hn0 & He & Hm);
    try assumption; try (split; assumption).
  { unfold len. lia. }
  assert (Hshape: wrapped = random ++ enc ++ [n0] ++ mac) by congruence.
  subst wrapped.
  assert (Hpos: (length payload + 10 + i = length (random ++ enc ++ [n0]) + i)%nat).
  { rewrite !length_app, Hr1, He. simpl. lia. }
  assert (Hw': random ++ enc ++ [n0] ++ mac = (random ++ enc ++ [n0]) ++ mac)
    by (rewrite <- !app_assoc; reflexivity).
  rewrite Hpos, Hw' in Hx. rewrite Hpos, Hw'.
  rewrite insert_app_r.
  rewrite lookup_app_r in Hx by lia.
  replace (length (random ++ enc ++ [n0]) + i - length (random ++ enc ++ [n0]))%nat
    with i in Hx by lia.
  rewrite <- !app_assoc.
  apply (Unwrap_of_layout self nonce random enc mac (<[i:=x]> mac) n0);
    try assumption.
  - rewrite length_insert. exact Hm.
  - apply mac_equal_insert; [lia|exact Hx].
Qed.

(** X7: [Unwrap] returns [None], whatever the header bytes, when it is
    given a nonce whose first element is not the first element of the nonce
    the message was wrapped with. *)
Theorem Unwrap_rejects_other_nonce (key payload nonce nonce' random : list Z)
    (sub_command src_node dst_node sub_command' src_node' dst_node' n0 n0' : Z)
    (self : Crypter) (wrapped : list Z) :
  length key = 16%nat -> forallb is_byte key = true ->
  (length payload <= 254)%nat -> forallb is_byte payload = true ->
  length nonce = 8%nat -> forallb is_byte nonce = true ->
  length random = 8%nat -> forallb is_byte random = true ->
  is_byte sub_command = true -> is_byte src_node = true -> is_byte dst_node = true ->
  Crypter_init key = Return self ->
  Wrap self payload nonce random sub_command src_node dst_node = Return wrapped ->
  nonce !! 0%nat = Some n0 -> nonce' !! 0%nat = Some n0' -> n0 <> n0' ->
  Unwrap self wrapped nonce' sub_command' src_node' dst_node' = Return None.
Proof.
  intros Hk1 Hk2 Hlen Hpayload Hn1 Hn2 Hr1 Hr2 Hsub Hsrc Hdst Hinit Hwrap Hn0 Hn0' Hne.
  destruct (Crypter_init_total block_ok key Hk1 Hk2) as (self' & Hinit' & Hself).
  rewrite Hinit in Hinit'. injection Hinit' as <-.
  destruct (Wrap_total block_ok self payload nonce random sub_command src_node dst_node)
    as (enc & mac & n & Hw & Henc & Hmac & Hn & He & Hm);
    try assumption; try (split; assumption).
  { unfold len. lia. }
  assert (Hshape: wrapped = random ++ enc ++ [n] ++ mac) by congruence.
  subst wrapped.
  assert (n = n0) by congruence. subst n.
  unfold Unwrap. cbv zeta.
  replace (py_index (random ++ enc ++ [n0] ++ mac) (-9)) with (Return n0).
  2:{ replace (-9) with (- len mac - 1) by (unfold len; rewrite Hm; reflexivity).
      rewrite (app_assoc random enc). symmetry. apply py_index_from_end. }
  rewrite bind_Return.
  rewrite (py_index_lookup nonce' 0 n0') by (try lia; exact Hn0'). rewrite bind_Return.
  replace (n0 =? n0') with false by (symmetry; apply Z.eqb_neq; exact Hne).
  reflexivity.
Qed.

(** X8: [Unwrap] raises [IndexError] on a message of fewer than 9
    elements. *)
Theorem Unwrap_short_message (self : Crypter) (wrapped nonce : list Z)
    (sub_command src_node dst_node : Z) :
  (length wrapped < 9)%nat ->
  Unwrap self wrapped nonce sub_command src_node dst_node = Raise IndexError.
Proof.
  intros Hlen. assert (Hl: len wrapped < 9) by (unfold len; lia).
  unfold Unwrap. cbv zeta.
  rewrite (py_index_short wrapped (-9)); [reflexivity|lia|lia].
Qed.

(** X9: the random seed is no such thing: [GetRandomList(n)] is [n] times
    the byte 0xaa, for [n] up to 16. *)
Theorem GetRandomList_constant (n : nat) :
  (n <= 16)%nat -> GetRandomList (Z.of_nat n) = replicate n 0xaa.
Proof.
  intros Hn. unfold GetRandomList, py_slice, slice_bound. cbv zeta.
  change (len _CRYPT_SECRET) with 16.
  replace (Z.of_nat n <? 0) with false by (symmetry; apply Z.ltb_ge; lia).
  change (0 <? 0) with false. cbv iota.
  rewrite Z.min_l, Z.min_l by lia. rewrite Z.sub_0_r, Nat2Z.id.
  change (Z.to_nat 0) with 0%nat. rewrite drop_0.
  unfold _CRYPT_SECRET. rewrite take_replicate. f_equal. lia.
Qed.

(** X10: messages are queued in the order of the calls.  On an object
    that holds a queue, [EnqueueMessage] of each message of a list in turn
    returns every time and leaves the old queue followed by the list, every
    other attribute being as before; on the object that [SecureQueue()]
    constructs the first call raises [AttributeError] and nothing is
    queued. *)
Theorem EnqueueMessage_fifo (messages : list (list obj)) :
  (forall (self : SecureQueue) (queue : list (list obj)),
     enqueue_all messages (set_queue queue self)
     = (Return tt, set_queue (queue ++ messages) self)) /\
  (forall message : list obj,
     enqueue_all (message :: messages) SecureQueue_new
     = (Raise AttributeError, SecureQueue_new)).
Proof.
  split.
  - induction messages as [|message messages IH]; intros self queue.
    + rewrite app_nil_r. reflexivity.
    + change (enqueue_all (message :: messages) (set_queue queue self))
        with (match EnqueueMessage message (set_queue queue self) with
              | (Return _, self') => enqueue_all messages self'
              | (Raise e, self') => (Raise e, self')
              end).
      rewrite EnqueueMessage_eval. cbn [_queue set_queue].
      change (set_queue (queue ++ [message]) (set_queue queue self))
        with (set_queue (queue ++ [message]) self).
      rewrite IH, <- app_assoc. reflexivity.
  - intros message. reflexivity.
Qed.

End zsecurity_unwrap.

(** ** Further properties of command.py *)

(** *** Packed bytes *)

Lemma pack_low (a l k : Z) :
  0 <= k -> 0 <= l < 2 ^ k -> Z.land (Z.lor (Z.shiftl a k) l) (Z.ones k) = l.
Proof.
  intros Hk Hl. rewrite Z.land_ones by exact Hk.
  rewrite <- Z.lxor_lor.
  2:{ apply Z.bits_inj'. intros n Hn. rewrite Z.land_spec, Z.bits_0.
      destruct (Z.lt_ge_cases n k) as [Hlt|Hge].
      - rewrite Z.shiftl_spec_low by exact Hlt. reflexivity.
      - replace (Z.testbit l n) with false; [apply andb_false_r|].
        symmetry. destruct (Z.eq_dec l 0) as [->|Hne]; [apply Z.bits_0|].
        apply Z.bits_above_log2; [lia|].
        assert (Z.log2 l < k) by (apply Z.log2_lt_pow2; lia). lia. }
  rewrite <- Z.add_nocarry_lxor.
  2:{ apply Z.bits_inj'. intros n Hn. rewrite Z.land_spec, Z.bits_0.
      destruct (Z.lt_ge_cases n k) as [Hlt|Hge].
      - rewrite Z.shiftl_spec_low by exact Hlt. reflexivity.
      - replace (Z.testbit l n) with false; [apply andb_false_r|].
        symmetry. destruct (Z.eq_dec l 0) as [->|Hne]; [apply Z.bits_0|].
        apply Z.bits_above_log2; [lia|].
        assert (Z.log2 l < k) by (apply Z.log2_lt_pow2; lia). lia. }
  rewrite Z.shiftl_mul_pow2 by exact Hk.
  rewrite Z.add_comm, Z.mod_add by lia. apply Z.mod_small. exact Hl.
Qed.

Lemma pack_high (a l k : Z) :
  0 <= k -> 0 <= l < 2 ^ k -> Z.shiftr (Z.lor (Z.shiftl a k) l) k = a.
Proof.
  intros Hk Hl. rewrite Z.shiftr_lor, Z.shiftr_shiftl_l by exact Hk.
  rewrite Z.sub_diag, Z.shiftl_0_r.
  rewrite (Z.shiftr_div_pow2 l) by exact Hk. rewrite Z.div_small by exact Hl.
  apply Z.lor_0_r.
Qed.

Lemma land_bit (b j : Z) :
  0 <= j -> (Z.land b (Z.shiftl 1 j) =? 0) = negb (Z.testbit b j).
Proof.
  intros Hj. destruct (Z.testbit b j) eqn:E; simpl.
  - apply Z.eqb_neq. intros H0.
    apply (f_equal (fun z => Z.testbit z j)) in H0.
    rewrite Z.land_spec, E, Z.bits_0, Z.shiftl_spec, Z.sub_diag in H0 by exact Hj.
    discriminate.
  - apply Z.eqb_eq. apply Z.bits_inj'. intros n Hn.
    rewrite Z.land_spec, Z.bits_0, Z.shiftl_spec by exact Hn.
    destruct (Z.eq_dec n j) as [->|Hne]; [rewrite E; reflexivity|].
    replace (Z.testbit 1 (n - j)) with false; [apply andb_false_r|].
    symmetry. destruct (Z.lt_ge_cases n j).
    + apply Z.testbit_neg_r. lia.
    + apply Z.bits_above_log2; simpl; lia.
Qed.

(** *** Integers of several bytes *)

Section command_integers.

Context `{Zwave} `{Codecs}.

Lemma _GetIntLittleEndian_loop (m : list Z) :
  forall x shift, 0 <= shift ->
    fst (foldl (fun '(x, shift) i => (x + Z.shiftl i shift, shift + 8)) (x, shift) m)
    = x + 2 ^ shift * le_value m.
Proof.
  induction m as [|i m IH]; intros x shift Hshift.
  - simpl. lia.
  - simpl foldl. rewrite IH by lia. simpl le_value.
    rewrite Z.shiftl_mul_pow2, Z.pow_add_r by lia. change (2 ^ 8) with 256. ring.
Qed.

Lemma _GetIntLittleEndian_le_value (m : list Z) : _GetIntLittleEndian m = le_value m.
Proof.
  unfold _GetIntLittleEndian. rewrite _GetIntLittleEndian_loop by lia.
  change (2 ^ 0) with 1. lia.
Qed.

Lemma _GetIntBigEndian_snoc (m : list Z) (i : Z) :
  _GetIntBigEndian (m ++ [i]) = _GetIntBigEndian m * 256 + i.
Proof.
  unfold _GetIntBigEndian. rewrite foldl_app. simpl.
  rewrite Z.shiftl_mul_pow2 by lia. reflexivity.
Qed.

(** X11: the big-endian reading of a sequence is the little-endian reading
    of the reversed sequence. *)
Theorem _GetIntBigEndian_reverse (m : list Z) :
  _GetIntBigEndian m = _GetIntLittleEndian (reverse m).
Proof.
  rewrite _GetIntLittleEndian_le_value.
  induction m as [|i m IH] using rev_ind; [reflexivity|].
  rewrite _GetIntBigEndian_snoc, reverse_app, IH. simpl. lia.
Qed.

Lemma le_value_bounds (m : list Z) :
  forallb is_byte m = true -> 0 <= le_value m < 256 ^ len m.
Proof.
  induction m as [|b m IH]; intros Hb.
  - simpl. change (len []) with 0. lia.
  - simpl in Hb. apply andb_true_iff in Hb as [Hb Hm]. apply is_byte_spec in Hb.
    specialize (IH Hm). rewrite len_cons. pose proof (len_nonneg m).
    rewrite Z.pow_add_r by lia. change (256 ^ 1) with 256. simpl le_value. nia.
Qed.

Lemma le_bytes_le_value (m : list Z) :
  forallb is_byte m = true -> le_bytes (le_value m) (length m) = m.
Proof.
  induction m as [|b m IH]; intros Hb; [reflexivity|].
  simpl in Hb. apply andb_true_iff in Hb as [Hb Hm]. apply is_byte_spec in Hb.
  simpl. rewrite land_255, Z.shiftr_div_pow2 by lia. change (2 ^ 8) with 256.
  replace (b + 256 * le_value m) with (b + le_value m * 256) by ring.
  f_equal.
  - rewrite Z.mod_add by lia. apply Z.mod_small. exact Hb.
  - rewrite Z.div_add by lia.
    rewrite Z.div_small by exact Hb. rewrite Z.add_0_l. apply IH, Hm.
Qed.

(** X12: on [n] bytes both readings are at least 0 and below 256^n. *)
Theorem _GetIntLittleEndian_bounds (m : list Z) :
  forallb is_byte m = true ->
  0 <= _GetIntLittleEndian m < 256 ^ len m /\
  0 <= _GetIntBigEndian m < 256 ^ len m.
Proof.
  intros Hb. split.
  - rewrite _GetIntLittleEndian_le_value. apply le_value_bounds, Hb.
  - rewrite _GetIntBigEndian_reverse, _GetIntLittleEndian_le_value.
    replace (len m) with (len (reverse m)) by (unfold len; rewrite length_reverse; reflexivity).
    apply le_value_bounds. rewrite forallb_forall in *. intros x Hx. apply Hb.
    apply list_elem_of_In. apply list_elem_of_In in Hx. apply elem_of_reverse. exact Hx.
Qed.

(** X13: parsing the rest of a message of bytes as a little-endian integer
    and assembling the parsed value as a field of kind R gives the rest of
    the message back. *)
Theorem rest_int_parse_then_assemble (m data : list Z) (index : Z) :
  forallb is_byte m = true -> 0 <= index <= len m ->
  exists v,
    _ParseRestLittleEndianInt m index = Return (Tuple (len m) v) /\
    assemble_field "R" v data = Return (data ++ drop (Z.to_nat index) m).
Proof.
  intros Hb Hindex. unfold _ParseRestLittleEndianInt. cbv zeta.
  replace (index + (len m - index)) with (len m) by lia.
  assert (Hslice: py_slice m index (len m) = drop (Z.to_nat index) m).
  { rewrite <- (take_drop (Z.to_nat index) m) at 1 2.
    apply py_slice_suffix.
    - unfold len. rewrite length_take. unfold len in Hindex. lia.
    - unfold len. rewrite length_take, length_app, length_take, length_drop.
      unfold len in Hindex. lia. }
  rewrite Hslice. eexists. split; [reflexivity|].
  set (rest := drop (Z.to_nat index) m).
  assert (Hrest: forallb is_byte rest = true).
  { rewrite <- (take_drop (Z.to_nat index) m), forallb_app in Hb.
    apply andb_true_iff in Hb as [_ Hb]. exact Hb. }
  assert (Hlen: len m - index = len rest).
  { unfold rest, len. rewrite length_drop. unfold len in Hindex. lia. }
  change (assemble_field "R"
            (VDict (<["value" := VInt (_GetIntLittleEndian rest)]>
                    (<["size" := VInt (len m - index)]> ∅))) data)
    with (Return (fst (foldl (fun '(data, value) (_ : Z) =>
                                (data ++ [Z.land value 0xff], Z.shiftr value 8))
                             (data, _GetIntLittleEndian rest)
                             (py_range (len m - index))))).
  rewrite (assemble_le_bytes (length rest)).
  - rewrite _GetIntLittleEndian_le_value, le_bytes_le_value by exact Hrest. reflexivity.
  - rewrite Hlen. unfold len. rewrite py_range_of_nat, length_fmap, length_seq. reflexivity.
Qed.

(** X14: on a mantissa whose first byte is below 128 [_GetSignedValue]
    returns the big-endian reading of the mantissa. *)
Theorem _GetSignedValue_top_bit_clear (d : Z) (data : list Z) :
  0 <= d < 128 -> _GetSignedValue (d :: data) = Return (_GetIntBigEndian (d :: data)).
Proof.
  intros Hd. unfold _GetSignedValue.
  change (py_index (d :: data) 0) with (Return d). rewrite bind_Return. cbv zeta.
  replace (Z.land d 128 =? 0) with true; [reflexivity|].
  symmetry. apply Z.eqb_eq. apply Z.bits_inj'. intros n Hn.
  rewrite Z.land_spec, Z.bits_0.
  destruct (Z.eq_dec n 7) as [->|Hne].
  - replace (Z.testbit d 7) with false; [reflexivity|].
    symmetry. destruct (Z.eq_dec d 0) as [->|]; [apply Z.bits_0|].
    apply Z.bits_above_log2; [lia|].
    assert (Z.log2 d < 7) by (apply Z.log2_lt_pow2; [lia|change (2 ^ 7) with 128; lia]). lia.
  - replace (Z.testbit 128 n) with false; [apply andb_false_r|].
    symmetry. change 128 with (2 ^ 7). apply Z.pow2_bits_false. lia.
Qed.

End command_integers.

Lemma elem_of_zip_seq {A} (data : list A) (s : nat) (i : Z) (b : A) :
  (i, b) ∈ zip (Z.of_nat <$> seq s (length data)) data <->
  exists k, data !! k = Some b /\ i = Z.of_nat (s + k).
Proof.
  revert s. induction data as [|a data IH]; intros s; simpl.
  - split; [intros Hin; apply elem_of_nil in Hin; contradiction|].
    intros (k & Hk & _). discriminate.
  - rewrite elem_of_cons, IH. split.
    + intros [[= -> ->]|(k & Hk & ->)].
      * exists 0%nat. split; [reflexivity|f_equal; lia].
      * exists (S k). split; [exact Hk|f_equal; lia].
    + intros ([|k] & Hk & ->).
      * left. simpl in Hk. injection Hk as ->. do 2 f_equal. lia.
      * right. exists k. split; [exact Hk|f_equal; lia].
Qed.

Lemma foldl_step {A B} (f : A -> B -> A) (a : A) (x : B) (l : list B) :
  foldl f a (x :: l) = foldl f (f a x) l.
Proof. reflexivity. Qed.

Section command_bits.

Context `{Zwave} `{Codecs}.

Lemma _ExtractBitVector_byte (b i offset : Z) (js : list Z) :
  (forall j, j ∈ js -> 0 <= j) ->
  forall (bits : gset Z) (n : Z),
    n ∈ foldl (fun bits j =>
                 if negb (Z.land b (Z.shiftl 1 j) =? 0)
                 then {[ j + i * 8 + offset ]} ∪ bits else bits) bits js
    <-> n ∈ bits \/ exists j, j ∈ js /\ Z.testbit b j = true /\ n = j + i * 8 + offset.
Proof.
  induction js as [|j js IH]; intros Hjs bits n; simpl.
  - split; [auto|]. intros [Hn|(j & Hj & _)]; [exact Hn|].
    apply elem_of_nil in Hj. contradiction.
  - rewrite IH by (intros j' Hj'; apply Hjs; right; exact Hj').
    rewrite land_bit by (apply Hjs; left). rewrite negb_involutive.
    destruct (Z.testbit b j) eqn:E.
    + rewrite elem_of_union, elem_of_singleton. split.
      * intros [[->|Hn]|(j' & Hj' & Hb & ->)].
        -- right. exists j. split; [left|auto].
        -- left. exact Hn.
        -- right. exists j'. split; [right; exact Hj'|auto].
      * intros [Hn|(j' & Hj' & Hb & ->)]; [left; right; exact Hn|].
        apply elem_of_cons in Hj' as [->|Hj'].
        -- left. left. reflexivity.
        -- right. exists j'. auto.
    + split.
      * intros [Hn|(j' & Hj' & Hb & ->)]; [left; exact Hn|].
        right. exists j'. split; [right; exact Hj'|auto].
      * intros [Hn|(j' & Hj' & Hb & ->)]; [left; exact Hn|].
        apply elem_of_cons in Hj' as [->|Hj']; [congruence|].
        right. exists j'. auto.
Qed.

Lemma _ExtractBitVector_bytes (offset : Z) (pairs : list (Z * Z)) :
  forall (bits : gset Z) (n : Z),
    n ∈ foldl (fun bits '(i, b) =>
                 foldl (fun bits j =>
                          if negb (Z.land b (Z.shiftl 1 j) =? 0)
                          then {[ j + i * 8 + offset ]} ∪ bits else bits)
                       bits (py_range 8)) bits pairs
    <-> n ∈ bits \/
        exists i b j, (i, b) ∈ pairs /\ 0 <= j < 8 /\ Z.testbit b j = true /\
                      n = j + i * 8 + offset.
Proof.
  assert (Hrange: forall j, j ∈ py_range 8 <-> 0 <= j < 8).
  { intros j. change (py_range 8) with [0; 1; 2; 3; 4; 5; 6; 7].
    rewrite !elem_of_cons, elem_of_nil. lia. }
  induction pairs as [|[i b] pairs IH]; intros bits n.
  - simpl. split; [auto|]. intros [Hn|(i & b & j & Hin & _)]; [exact Hn|].
    apply elem_of_nil in Hin. contradiction.
  - rewrite foldl_step. cbv beta iota. rewrite IH.
    rewrite _ExtractBitVector_byte by (intros j Hj; apply Hrange in Hj; lia).
    split.
    + intros [[Hn|(j & Hj & Hb & ->)]|(i' & b' & j & Hin & Hj & Hb & ->)].
      * left. exact Hn.
      * right. exists i, b, j. rewrite <- Hrange. split; [left|auto].
      * right. exists i', b', j. split; [right; exact Hin|auto].
    + intros [Hn|(i' & b' & j & Hin & Hj & Hb & ->)]; [left; left; exact Hn|].
      apply elem_of_cons in Hin as [[= -> ->]|Hin].
      * left. right. exists j. rewrite Hrange. auto.
      * right. exists i', b', j. auto.
Qed.

(** X15: [_ExtractBitVector(data, offset)] holds [j + 8 * i + offset]
    exactly for the bits [j], from 0 to 7, that are set in the element [i]
    of [data]. *)
Theorem _ExtractBitVector_spec (data : list Z) (offset n : Z) :
  n ∈ _ExtractBitVector data offset <->
  exists (i : nat) (b j : Z),
    data !! i = Some b /\ 0 <= j < 8 /\ Z.testbit b j = true /\
    n = j + Z.of_nat i * 8 + offset.
Proof.
  unfold _ExtractBitVector. rewrite _ExtractBitVector_bytes.
  unfold len. rewrite py_range_of_nat. split.
  - intros [Hn|(i & b & j & Hin & Hj & Hb & ->)]; [apply not_elem_of_empty in Hn; contradiction|].
    apply elem_of_zip_seq in Hin as (k & Hk & ->). exists k, b, j. auto.
  - intros (k & b & j & Hk & Hj & Hb & ->). right.
    exists (Z.of_nat k), b, j. split; [|auto].
    apply elem_of_zip_seq. exists k. auto.
Qed.

(** *** The association groups *)

Lemma _ParseGroups_loop_total (m : list Z) (count : nat) :
  forall (index : Z) (groups : list (Z * Z * Z)),
    0 <= index -> index + 7 * Z.of_nat count <= len m ->
    exists gs,
      _ParseGroups_loop m count index groups
        = Return (index + 7 * Z.of_nat count, groups ++ gs) /\
      length gs = count.
Proof.
  induction count as [|count IH]; intros index groups Hindex Hlen.
  - exists []. simpl. rewrite app_nil_r. split; [do 2 f_equal; lia|reflexivity].
  - cbn [_ParseGroups_loop].
    destruct (py_index_in_range m (index + 0)) as (num & -> & _); [lia|].
    destruct (py_index_in_range m (index + 2)) as (p2 & -> & _); [lia|].
    destruct (py_index_in_range m (index + 3)) as (p3 & -> & _); [lia|].
    destruct (py_index_in_range m (index + 5)) as (e5 & -> & _); [lia|].
    destruct (py_index_in_range m (index + 6)) as (e6 & -> & _); [lia|].
    rewrite !bind_Return.
    destruct (IH (index + 7) (groups ++ [(num, p2 * 256 + p3, e5 * 256 + e6)]))
      as (gs & -> & Hgs); [lia|lia|].
    exists ((num, p2 * 256 + p3, e5 * 256 + e6) :: gs). split.
    + rewrite <- app_assoc. do 2 f_equal. lia.
    + simpl. rewrite Hgs. reflexivity.
Qed.

(** X16: with the cursor on a byte [misc] of the message, [_ParseGroups]
    reads [count = misc & 0x3f] and answers the failure [(index, None)] when
    fewer than [1 + 7 * count] bytes remain, and otherwise [count] groups
    and the cursor [index + 1 + 7 * count]. *)
Theorem _ParseGroups_outcome (m : list Z) (index misc : Z) :
  0 <= index -> m !! Z.to_nat index = Some misc ->
  let count := Z.land misc 0x3f in
  if len m <? index + 1 + count * 7
  then _ParseGroups m index = Return (Tuple index VNone)
  else exists groups,
         _ParseGroups m index
           = Return (Tuple (index + 1 + count * 7) (VTuples groups)) /\
         len groups = count.
Proof.
  intros Hindex Hmisc count. unfold _ParseGroups.
  rewrite (py_index_lookup m index misc Hindex Hmisc), bind_Return. cbv zeta.
  fold count.
  assert (Hcount: 0 <= count).
  { unfold count. apply Z.land_nonneg. right. lia. }
  destruct (len m <? index + 1 + count * 7) eqn:E; [reflexivity|].
  apply Z.ltb_ge in E.
  destruct (_ParseGroups_loop_total m (Z.to_nat count) (index + 1) [])
    as (gs & -> & Hgs); [lia|lia|].
  rewrite bind_Return. exists gs. split.
  - simpl. do 2 f_equal. lia.
  - unfold len. lia.
Qed.

End command_bits.

Section command_fields.

Context `{Zwave} `{Codecs}.

(** *** The record that [ParseCommand] returns *)

Lemma ParseCommand_loop_shape (m : list Z) (table : list string) :
  forall (index : Z) (out : gmap string obj) (r : obj),
    ParseCommand_loop m table index out = Return r ->
    r = VNone \/
    exists out',
      r = VDict out' /\
      (forall name,
         is_Some (out' !! name) <->
         is_Some (out !! name) \/ exists t, t ∈ table /\ str_slice t 2 (-1) = name) /\
      ((forall name v, out !! name = Some v -> is_None v = false) ->
       forall name v, out' !! name = Some v -> is_None v = false).
Proof.
  induction table as [|t table IH]; intros index out r Hr.
  - injection Hr as <-. right. exists out. split; [reflexivity|]. split; [|auto].
    intros name. split; [auto|]. intros [Hn|(t & Ht & _)]; [exact Hn|].
    apply elem_of_nil in Ht. contradiction.
  - rewrite ParseCommand_loop_cons in Hr.
    destruct (str_index t 0) as [kind|]; [|discriminate]. rewrite bind_Return in Hr.
    destruct (dict_get _PARSE_ACTIONS kind) as [action|]; [|discriminate].
    rewrite bind_Return in Hr.
    destruct (action m index) as [p|]; [|discriminate]. rewrite bind_Return in Hr.
    destruct (unpack p) as [[new_index value]|]; [|discriminate].
    rewrite bind_Return in Hr.
    destruct (is_None value) eqn:Hnone; [injection Hr as <-; left; reflexivity|].
    destruct (IH _ _ _ Hr) as [->|(out' & -> & Hdom & Hval)]; [left; reflexivity|].
    right. exists out'. split; [reflexivity|]. split.
    + intros name. rewrite Hdom. split.
      * intros [Hn|(t' & Ht' & Hname)].
        -- destruct (decide (str_slice t 2 (-1) = name)) as [<-|Hne].
           ++ right. exists t. split; [left|reflexivity].
           ++ left. rewrite lookup_insert_ne in Hn by exact Hne. exact Hn.
        -- right. exists t'. split; [right; exact Ht'|exact Hname].
      * intros [Hn|(t' & Ht' & Hname)].
        -- left. destruct (decide (str_slice t 2 (-1) = name)) as [<-|Hne].
           ++ rewrite lookup_insert_eq. eauto.
           ++ rewrite lookup_insert_ne by exact Hne. exact Hn.
        -- apply elem_of_cons in Ht' as [->|Ht'].
           ++ left. rewrite <- Hname, lookup_insert_eq. eauto.
           ++ right. eauto.
    + intros Hout. apply Hval. intros name v.
      destruct (decide (str_slice t 2 (-1) = name)) as [<-|Hne].
      * rewrite lookup_insert_eq. intros [= <-]. exact Hnone.
      * rewrite lookup_insert_ne by exact Hne. apply Hout.
Qed.

(** X17: [ParseCommand] returns no partial record.  What it returns is the
    empty list, [None], or a dictionary that has a value other than [None]
    under the name of every descriptor of the command's table entry, and
    under no other name. *)
Theorem ParseCommand_all_or_nothing (m : list Z) (r : obj) :
  ParseCommand m = Return r ->
  r = VList [] \/ r = VNone \/
  exists table out,
    _GetParameterDescriptors m = Return (Some table) /\
    r = VDict out /\
    (forall name,
       is_Some (out !! name) <-> exists t, t ∈ table /\ str_slice t 2 (-1) = name) /\
    (forall name v, out !! name = Some v -> is_None v = false).
Proof.
  unfold ParseCommand. intros Hr.
  destruct (_GetParameterDescriptors m) as [[table|]|]; [| |discriminate].
  - rewrite bind_Return in Hr.
    destruct (ParseCommand_loop_shape m table 2 ∅ r Hr)
      as [->|(out & -> & Hdom & Hval)]; [auto|].
    right. right. exists table, out. split; [reflexivity|]. split; [reflexivity|]. split.
    + intros name. rewrite Hdom. rewrite lookup_empty. split.
      * intros [[v Hv]|Ht]; [discriminate|exact Ht].
      * auto.
    + apply Hval. intros name v. rewrite lookup_empty. discriminate.
  - rewrite bind_Return in Hr. injection Hr as <-. auto.
Qed.

(** *** The decoders that check the length *)

(** X18: at a cursor that is not negative [_ParseByte], [_ParseWord] and
    [_ParseNonce] raise nothing: they answer the failure [(index, None)]
    when fewer than 1, 2 and 8 bytes remain, and otherwise the byte, the
    big-endian word and the 8 bytes at the cursor, with the cursor moved
    behind them. *)
Theorem checked_decoders (m : list Z) (index : Z) :
  0 <= index ->
  _ParseByte m index
    = Return (match m !! Z.to_nat index with
              | Some b => Tuple (index + 1) (VInt b)
              | None => Tuple index VNone
              end) /\
  _ParseWord m index
    = Return (match m !! Z.to_nat index, m !! S (Z.to_nat index) with
              | Some a, Some b => Tuple (index + 2) (VInt (a * 256 + b))
              | _, _ => Tuple index VNone
              end) /\
  _ParseNonce m index
    = Return (if len m <? index + 8 then Tuple index VNone
              else Tuple (index + 8) (VList (take 8 (drop (Z.to_nat index) m)))).
Proof.
  intros Hindex. split; [|split].
  - unfold _ParseByte. destruct (len m <=? index) eqn:E.
    + apply Z.leb_le in E. rewrite lookup_ge_None_2 by (unfold len in E; lia). reflexivity.
    + apply Z.leb_gt in E.
      destruct (py_index_in_range m index) as (b & -> & ->); [lia|]. reflexivity.
  - unfold _ParseWord. destruct (len m <=? index + 1) eqn:E.
    + apply Z.leb_le in E.
      rewrite (lookup_ge_None_2 m (S (Z.to_nat index))) by (unfold len in E; lia).
      destruct (m !! Z.to_nat index); reflexivity.
    + apply Z.leb_gt in E.
      destruct (py_index_in_range m index) as (a & -> & ->); [lia|].
      destruct (py_index_in_range m (index + 1)) as (b & -> & Hb); [lia|].
      replace (Z.to_nat (index + 1)) with (S (Z.to_nat index)) in Hb by lia.
      rewrite Hb. reflexivity.
  - unfold _ParseNonce. cbv zeta. destruct (len m <? index + 8) eqn:E; [reflexivity|].
    apply Z.ltb_ge in E. do 3 f_equal.
    unfold py_slice, slice_bound. cbv zeta.
    rewrite !ltb_false by lia. rewrite !Z.min_l by lia.
    f_equal. lia.
Qed.

(** *** Sensor, meter and text fields *)

(** X19: a sensor reading of exponent 0 to 7, scale 0 to 3 and a mantissa
    of 1 to 7 bytes is assembled by [_MakeSensor] into one packed byte and
    the mantissa, and [_ParseSensor] reads the bytes back as the same
    reading with the further key [_value]. *)
Theorem sensor_roundtrip (exp scale value : Z) (mantissa pre post : list Z) :
  0 <= exp < 8 -> 0 <= scale < 4 -> (1 <= length mantissa <= 7)%nat ->
  _GetSignedValue mantissa = Return value ->
  let args : gmap string obj :=
    {[ "exp" := VInt exp; "scale" := VInt scale; "mantissa" := VList mantissa ]} in
  exists c,
    _MakeSensor args = Return (c :: mantissa) /\
    _ParseSensor (pre ++ (c :: mantissa) ++ post) (len pre)
      = Return (Tuple (len pre + 1 + len mantissa)
                  (VDict (<["_value" := VFloat value (10 ^ exp)]> args))).
Proof.
  intros Hexp Hscale Hlen Hvalue args.
  exists (Z.lor (Z.lor (Z.shiftl exp 5) (Z.shiftl scale 3)) (len mantissa)).
  split; [reflexivity|].
  set (c := Z.lor (Z.lor (Z.shiftl exp 5) (Z.shiftl scale 3)) (len mantissa)).
  assert (Hc: c = Z.lor (Z.shiftl (Z.lor (Z.shiftl exp 2) scale) 3) (len mantissa)).
  { unfold c. rewrite Z.shiftl_lor, Z.shiftl_shiftl by lia. reflexivity. }
  assert (Hl: 0 <= len mantissa < 2 ^ 3) by (unfold len; change (2 ^ 3) with 8; lia).
  assert (Hsize: Z.land c 7 = len mantissa).
  { rewrite Hc. apply (pack_low _ _ 3); [lia|exact Hl]. }
  assert (Hc3: Z.shiftr c 3 = Z.lor (Z.shiftl exp 2) scale).
  { rewrite Hc. apply pack_high; [lia|exact Hl]. }
  assert (Hscale': Z.land (Z.shiftr c 3) 3 = scale).
  { rewrite Hc3. apply (pack_low _ _ 2); [lia|change (2 ^ 2) with 4; lia]. }
  assert (Hexp': Z.land (Z.shiftr c 5) 7 = exp).
  { replace (Z.shiftr c 5) with (Z.shiftr (Z.shiftr c 3) 2)
      by (rewrite Z.shiftr_shiftr by lia; reflexivity).
    rewrite Hc3, pack_high by (try lia; change (2 ^ 2) with 4; lia).
    change 7 with (Z.ones 3). rewrite Z.land_ones by lia.
    apply Z.mod_small. change (2 ^ 3) with 8. lia. }
  unfold _ParseSensor. pose proof (len_nonneg post).
  rewrite ltb_false by (rewrite !len_app, len_cons; unfold len in *; lia).
  rewrite py_index_app_0. change (py_index ((c :: mantissa) ++ post) 0) with (Return c).
  rewrite bind_Return. cbv zeta. rewrite Hsize, Hscale', Hexp'.
  rewrite ltb_false by (rewrite !len_app, len_cons; lia).
  replace (py_slice (pre ++ (c :: mantissa) ++ post) (len pre + 1)
             (len pre + 1 + len mantissa)) with mantissa.
  2:{ symmetry.
      replace (pre ++ (c :: mantissa) ++ post) with ((pre ++ [c]) ++ mantissa ++ post)
        by (rewrite <- app_assoc; reflexivity).
      apply py_slice_middle'; rewrite len_app; change (len [c]) with 1; lia. }
  rewrite Hvalue, bind_Return. reflexivity.
Qed.

(** X20: a meter reading without time delta and second mantissa does not
    come back: [_MakeMeter] assembles it into two packed bytes and the
    mantissa, and on a message that ends with them [_ParseMeter] answers
    the failure [(index + 2, None)]. *)
Theorem meter_without_delta_is_rejected (type unit exp rate : Z)
    (mantissa pre : list Z) :
  (length mantissa <= 7)%nat ->
  let args : gmap string obj :=
    {[ "type" := VInt type; "unit" := VInt unit; "exp" := VInt exp;
       "rate" := VInt rate; "mantissa" := VList mantissa ]} in
  exists c1 c2,
    _MakeMeter args = Return ([c1; c2] ++ mantissa) /\
    _ParseMeter (pre ++ [c1; c2] ++ mantissa) (len pre)
      = Return (Tuple (len pre + 2) VNone).
Proof.
  intros Hlen args.
  exists (Z.lor (Z.lor (Z.shiftl (Z.land unit 4) 7) (Z.shiftl rate 5)) (Z.land type 0x1f)),
         (Z.lor (Z.lor (Z.shiftl exp 5) (Z.shiftl (Z.land unit 3) 3)) (len mantissa)).
  split.
  - change (_MakeMeter args) with
      (Return ([Z.lor (Z.lor (Z.shiftl (Z.land unit 4) 7) (Z.shiftl rate 5)) (Z.land type 0x1f);
                Z.lor (Z.lor (Z.shiftl exp 5) (Z.shiftl (Z.land unit 3) 3)) (len mantissa)]
               ++ mantissa ++ [] ++ [])).
    rewrite !app_nil_r. reflexivity.
  - set (c1 := Z.lor (Z.lor (Z.shiftl (Z.land unit 4) 7) (Z.shiftl rate 5)) (Z.land type 0x1f)).
    set (c2 := Z.lor (Z.lor (Z.shiftl exp 5) (Z.shiftl (Z.land unit 3) 3)) (len mantissa)).
    assert (Hsize: Z.land c2 7 = len mantissa).
    { unfold c2. replace (Z.shiftl exp 5) with (Z.shiftl (Z.shiftl exp 2) 3)
        by (rewrite Z.shiftl_shiftl by lia; reflexivity).
      rewrite <- Z.shiftl_lor. apply (pack_low _ _ 3); [lia|].
      unfold len. change (2 ^ 3) with 8. lia. }
    unfold _ParseMeter.
    replace (len pre + 2 >? len (pre ++ [c1; c2] ++ mantissa)) with false.
    2:{ symmetry. rewrite Z.gtb_ltb. apply Z.ltb_ge.
        rewrite !len_app. change (len [c1; c2]) with 2. pose proof (len_nonneg mantissa). lia. }
    rewrite py_index_app_0.
    change (py_index ([c1; c2] ++ mantissa) 0) with (Return c1). rewrite bind_Return.
    cbv zeta. rewrite py_index_app_r by lia.
    change (py_index ([c1; c2] ++ mantissa) 1) with (Return c2). rewrite bind_Return.
    rewrite Hsize.
    replace (len pre + 2 + len mantissa >=? len (pre ++ [c1; c2] ++ mantissa)) with true.
    2:{ symmetry. rewrite Z.geb_leb. apply Z.leb_le.
        rewrite !len_app. change (len [c1; c2]) with 2. lia. }
    reflexivity.
Qed.

(** X21: a text of at most 31 elements with its encoding is assembled as a
    field of kind F into one packed byte and the text, and
    [_ParseStringWithLengthAndEncoding] reads the value back wherever the
    bytes stand; the cursor it returns is [1 + len(text)], whatever the
    cursor it started from. *)
Theorem text_field_roundtrip (encoding : Z) (text pre post data : list Z) :
  (length text <= 31)%nat ->
  let v := VDict {[ "encoding" := VInt encoding; "text" := VList text ]} in
  exists c,
    assemble_field "F" v data = Return (data ++ c :: text) /\
    _ParseStringWithLengthAndEncoding (pre ++ (c :: text) ++ post) (len pre)
      = Return (Tuple (1 + len text) v).
Proof.
  intros Hlen v. exists (Z.lor (Z.shiftl encoding 5) (len text)).
  split; [reflexivity|].
  set (c := Z.lor (Z.shiftl encoding 5) (len text)).
  assert (Hl: 0 <= len text < 2 ^ 5) by (unfold len; change (2 ^ 5) with 32; lia).
  assert (Hsize: Z.land c 0x1f = len text) by (apply (pack_low _ _ 5); [lia|exact Hl]).
  assert (Henc: Z.shiftr c 5 = encoding) by (apply pack_high; [lia|exact Hl]).
  unfold _ParseStringWithLengthAndEncoding.
  rewrite py_index_app_0. change (py_index ((c :: text) ++ post) 0) with (Return c).
  rewrite bind_Return. cbv zeta. rewrite Hsize, Henc.
  replace (py_slice (pre ++ (c :: text) ++ post) (len pre + 1) (len pre + 1 + len text))
    with text.
  2:{ symmetry.
      replace (pre ++ (c :: text) ++ post) with ((pre ++ [c]) ++ text ++ post)
        by (rewrite <- app_assoc; reflexivity).
      apply py_slice_middle'; rewrite len_app; change (len [c]) with 1; lia. }
  reflexivity.
Qed.

End command_fields.

Ltac bind_inv H :=
  match type of H with
  | (mbind _ ?x = Return _) =>
      destruct x eqn:?; [rewrite bind_Return in H|discriminate H]
  end.

Section command_assembler.

Context `{Zwave} `{Codecs}.

(** *** What the assembler builds *)

Lemma assemble_field_appends (kind : string) (v : obj) (data r : list Z) :
  assemble_field kind v data = Return r -> exists bytes, r = data ++ bytes.
Proof.
  unfold assemble_field. intros Hr.
  repeat match type of Hr with
         | (if ?c then _ else _) = _ => destruct c
         end;
    repeat bind_inv Hr; try discriminate Hr;
    try (injection Hr as <-; eauto; fail).
  - exists []. rewrite app_nil_r. congruence.
  - injection Hr as <-. rewrite foldl_snoc, <- app_assoc. eauto.
  - injection Hr as <-.
    erewrite (assemble_le_bytes (length (py_range _))) by reflexivity. eauto.
Qed.

Lemma AssembleCommand_loop_appends (table : list string) (args : gmap string obj) :
  forall data r,
    AssembleCommand_loop table args data = Return r -> exists bytes, r = data ++ bytes.
Proof.
  induction table as [|t table IH]; intros data r Hr.
  - injection Hr as <-. exists []. rewrite app_nil_r. reflexivity.
  - rewrite AssembleCommand_loop_cons in Hr. repeat bind_inv Hr.
    match goal with
    | E : assemble_field _ _ _ = Return _ |- _ =>
        apply assemble_field_appends in E as (b1 & ->)
    end.
    apply IH in Hr as (b2 & ->). exists (b1 ++ b2). rewrite app_assoc. reflexivity.
Qed.

(** X22: what [AssembleCommand] returns starts with the two bytes of the
    class and the command, so that [_GetParameterDescriptors] on it looks
    up the table entry the message was assembled from. *)
Theorem AssembleCommand_header (cmd0 cmd1 : Z) (args : gmap string obj)
    (data : list Z) :
  AssembleCommand cmd0 cmd1 args = Return data ->
  (exists body, data = cmd0 :: cmd1 :: body) /\
  _GetParameterDescriptors data = SUBCMD_TO_PARSE_TABLE (cmd0 * 256 + cmd1).
Proof.
  unfold AssembleCommand. intros Hdata. bind_inv Hdata.
  match goal with
  | E : SUBCMD_TO_PARSE_TABLE _ = Return ?o |- _ => destruct o as [table|]; [|discriminate]
  end.
  apply AssembleCommand_loop_appends in Hdata as (body & ->).
  split; [exists body; reflexivity|].
  unfold _GetParameterDescriptors. pose proof (len_nonneg body).
  rewrite ltb_false by (rewrite len_app; change (len [cmd0; cmd1]) with 2; lia).
  change (py_index ([cmd0; cmd1] ++ body) 0) with (Return cmd0).
  change (py_index ([cmd0; cmd1] ++ body) 1) with (Return cmd1).
  rewrite !bind_Return. congruence.
Qed.

Lemma AssembleCommand_loop_app (pre post : list string) (args : gmap string obj) :
  forall data,
    AssembleCommand_loop (pre ++ post) args data
    = (d ← AssembleCommand_loop pre args data; AssembleCommand_loop post args d).
Proof.
  induction pre as [|t pre IH]; intros data; [reflexivity|].
  simpl app. rewrite !AssembleCommand_loop_cons.
  destruct (str_index t 0); [|reflexivity]. rewrite !bind_Return.
  destruct (dict_get args (str_slice t 2 (-1))); [|reflexivity]. rewrite !bind_Return.
  destruct (assemble_field _ _ data); [|reflexivity]. rewrite !bind_Return.
  apply IH.
Qed.

(** X23: [AssembleCommand] raises [KeyError] when [args] has no value under
    the name of a descriptor, the descriptors before it being encodable. *)
Theorem AssembleCommand_missing_field (cmd0 cmd1 : Z) (pre post : list string)
    (t kind : string) (args : gmap string obj) :
  SUBCMD_TO_PARSE_TABLE (cmd0 * 256 + cmd1) = Return (Some (pre ++ t :: post)) ->
  encodable args pre ->
  str_index t 0 = Return kind ->
  args !! str_slice t 2 (-1) = None ->
  AssembleCommand cmd0 cmd1 args = Raise KeyError.
Proof.
  intros Htable Hpre Hkind Hmissing. unfold AssembleCommand.
  rewrite Htable, bind_Return, AssembleCommand_loop_app.
  destruct (loops_roundtrip args pre Hpre) as (bytes & -> & _).
  rewrite bind_Return, AssembleCommand_loop_cons, Hkind, bind_Return.
  unfold dict_get. rewrite Hmissing. reflexivity.
Qed.

(** X24: the kinds A, G, T and U have a parse action and no case in the
    assembler: on a table entry with a descriptor of such a kind
    [AssembleCommand] raises [AssertionError], the descriptors before it
    being encodable. *)
Theorem AssembleCommand_kind_without_encoder (cmd0 cmd1 : Z) (pre post : list string)
    (t kind : string) (v : obj) (args : gmap string obj) :
  SUBCMD_TO_PARSE_TABLE (cmd0 * 256 + cmd1) = Return (Some (pre ++ t :: post)) ->
  encodable args pre ->
  str_index t 0 = Return kind ->
  In kind ["A"; "G"; "T"; "U"]%string ->
  args !! str_slice t 2 (-1) = Some v ->
  is_Some (_PARSE_ACTIONS !! kind) /\
  AssembleCommand cmd0 cmd1 args = Raise AssertionError.
Proof.
  intros Htable Hpre Hkind Hin Hv. split.
  - simpl in Hin. destruct Hin as [<-|[<-|[<-|[<-|[]]]]]; eexists; reflexivity.
  - unfold AssembleCommand.
    rewrite Htable, bind_Return, AssembleCommand_loop_app.
    destruct (loops_roundtrip args pre Hpre) as (bytes & -> & _).
    rewrite bind_Return, AssembleCommand_loop_cons, Hkind, bind_Return.
    rewrite (dict_get_Some _ _ _ Hv), bind_Return.
    simpl in Hin. destruct Hin as [<-|[<-|[<-|[<-|[]]]]]; reflexivity.
Qed.

(** X25: the kinds Y, K and S, which the assembler has a case for, have no
    parse action: on a command whose first descriptor is of such a kind
    [ParseCommand] raises [KeyError]. *)
Theorem ParseCommand_kind_without_decoder (m0 m1 : Z) (rest : list Z)
    (table : list string) (t kind : string) :
  SUBCMD_TO_PARSE_TABLE (m0 * 256 + m1) = Return (Some (t :: table)) ->
  str_index t 0 = Return kind ->
  In kind ["Y"; "K"; "S"]%string ->
  ParseCommand (m0 :: m1 :: rest) = Raise KeyError.
Proof.
  intros Htable Hkind Hin. unfold ParseCommand, _GetParameterDescriptors.
  pose proof (len_nonneg rest).
  rewrite ltb_false by (rewrite !len_cons; lia).
  change (py_index (m0 :: m1 :: rest) 0) with (Return m0).
  change (py_index (m0 :: m1 :: rest) 1) with (Return m1).
  rewrite !bind_Return, Htable, bind_Return.
  rewrite ParseCommand_loop_cons, Hkind, bind_Return.
  simpl in Hin. destruct Hin as [<-|[<-|[<-|[]]]]; reflexivity.
Qed.

(** *** [_MakeValue] *)

Lemma _MakeValue_loop_fuel (fuel : nat) :
  forall value shift data,
    (Z.to_nat (shift + 8) <= fuel)%nat ->
    _MakeValue_loop (S fuel) value shift data = _MakeValue_loop fuel value shift data.
Proof.
  induction fuel as [|fuel IH]; intros value shift data Hfuel.
  - simpl. destruct (shift >=? 0) eqn:E; [|reflexivity].
    rewrite Z.geb_leb in E. apply Z.leb_le in E. lia.
  - cbn [_MakeValue_loop]. destruct (shift >=? 0) eqn:E; [|reflexivity].
    rewrite Z.geb_leb in E. apply Z.leb_le in E.
    change (_MakeValue_loop (S fuel) value (shift - 8)
              (data ++ [Z.land 255 (Z.shiftr value shift)])
            = _MakeValue_loop fuel value (shift - 8)
                (data ++ [Z.land 255 (Z.shiftr value shift)])).
    apply IH. lia.
Qed.

Lemma length_py_range (n : Z) : length (py_range n) = Z.to_nat n.
Proof.
  unfold py_range, py_range3. rewrite length_fmap, length_seq.
  f_equal. rewrite Z.div_1_r. lia.
Qed.

(** X26: for a configuration byte whose low three bits give the size 1, 2
    or 4 and a value below 256^size, [_MakeValue] returns the byte followed
    by the size big-endian bytes of the value, and [_ParseValue] reads size
    and value back wherever the bytes stand. *)
Theorem _ParseValue__MakeValue (conf value : Z) (pre post : list Z) :
  Z.land conf 7 = 1 \/ Z.land conf 7 = 2 \/ Z.land conf 7 = 4 ->
  0 <= value < 256 ^ Z.land conf 7 ->
  exists bytes,
    _MakeValue conf value = Return (conf :: bytes) /\
    len bytes = Z.land conf 7 /\
    _ParseValue (pre ++ (conf :: bytes) ++ post) (len pre)
      = Return (Tuple (len pre + 1 + Z.land conf 7)
                  (VDict {[ "size" := VInt (Z.land conf 7); "value" := VInt value ]})).
Proof.
  intros Hsize Hvalue. set (size := Z.land conf 7) in *.
  exists (be_bytes value (Z.to_nat size)).
  assert (Hbe: len (be_bytes value (Z.to_nat size)) = size)
    by (unfold len; rewrite length_be_bytes; lia).
  split; [|split; [exact Hbe|]].
  - unfold _MakeValue. fold size. cbv zeta.
    destruct Hsize as [Hs|[Hs|Hs]]; rewrite Hs; simpl;
      rewrite ?(Z.land_comm 255); reflexivity.
  - unfold _ParseValue.
    rewrite py_index_app_0. change (py_index ((conf :: _) ++ post) 0) with (Return conf).
    rewrite bind_Return. cbv zeta. fold size.
    replace (py_slice (pre ++ (conf :: be_bytes value (Z.to_nat size)) ++ post)
               (len pre + 1) (len pre + 1 + size))
      with (be_bytes value (Z.to_nat size)).
    2:{ symmetry.
        replace (pre ++ (conf :: be_bytes value (Z.to_nat size)) ++ post)
          with ((pre ++ [conf]) ++ be_bytes value (Z.to_nat size) ++ post)
          by (rewrite <- app_assoc; reflexivity).
        apply py_slice_middle'; rewrite len_app; change (len [conf]) with 1; lia. }
    unfold _GetIntBigEndian. rewrite _GetIntBigEndian_be_bytes.
    rewrite Z2Nat.id, Z.mod_small by lia. reflexivity.
Qed.

End command_assembler.

(** ** The further statements on the sample instances *)

Lemma Crypt_xor_keystream_witness :
  exists ks,
    @Crypt sample_cipher _DEFAULT_NETWORK_KEY (replicate (length sample_payload) 0)
      (sample_random ++ sample_nonce) = Return ks /\
    length ks = length sample_payload /\
    @Crypt sample_cipher _DEFAULT_NETWORK_KEY sample_payload
      (sample_random ++ sample_nonce) = Return (zip_with Z.lxor sample_payload ks).
Proof.
  apply (@Crypt_xor_keystream sample_cipher sample_cipher_block_ok); reflexivity.
Defined.

Lemma Crypt_of_prefix_witness :
  exists ea eb,
    @Crypt sample_cipher _DEFAULT_NETWORK_KEY sample_payload
      (sample_random ++ sample_nonce) = Return ea /\
    length ea = length sample_payload /\
    @Crypt sample_cipher _DEFAULT_NETWORK_KEY (sample_payload ++ [7; 8])
      (sample_random ++ sample_nonce) = Return (ea ++ eb).
Proof.
  apply (@Crypt_of_prefix sample_cipher sample_cipher_block_ok); reflexivity.
Defined.

Lemma ComputeMAC_tag_or_ValueError_witness :
  if len sample_payload <? 256
  then exists mac,
         @ComputeMAC sample_cipher _DEFAULT_NETWORK_KEY sample_payload
           (sample_random ++ sample_nonce) 0x81 1 5 = Return mac /\
         length mac = 8%nat
  else @ComputeMAC sample_cipher _DEFAULT_NETWORK_KEY sample_payload
         (sample_random ++ sample_nonce) 0x81 1 5 = Raise ValueError.
Proof.
  apply (@ComputeMAC_tag_or_ValueError sample_cipher sample_cipher_block_ok);
    reflexivity.
Defined.

Lemma Unwrap_Wrap_up_to_254_witness :
  (self ← @Crypter_init sample_cipher _DEFAULT_NETWORK_KEY;
   wrapped ← @Wrap sample_cipher self (replicate 100 7) sample_nonce sample_random 0x81 1 5;
   @Unwrap sample_cipher self wrapped sample_nonce 0x81 1 5)
  = Return (Some (replicate 100 7)).
Proof.
  apply (@Unwrap_Wrap_up_to_254 sample_cipher sample_cipher_block_ok);
    try reflexivity.
  simpl. lia.
Defined.

Lemma Wrap_rejects_long_payload_witness :
  (self ← @Crypter_init sample_cipher _DEFAULT_NETWORK_KEY;
   @Wrap sample_cipher self (replicate 300 7) sample_nonce sample_random 0x81 1 5)
  = Raise ValueError.
Proof.
  apply (@Wrap_rejects_long_payload sample_cipher sample_cipher_block_ok);
    try reflexivity.
  simpl. lia.
Defined.

Lemma Unwrap_rejects_altered_mac_witness :
  @Unwrap sample_cipher sample_crypter
    (<[(length sample_payload + 10 + 2)%nat := 0]> sample_wrapped) sample_nonce 0x81 1 5
  = Return None.
Proof.
  apply (@Unwrap_rejects_altered_mac sample_cipher sample_cipher_block_ok
           _DEFAULT_NETWORK_KEY sample_payload sample_nonce sample_random);
    try reflexivity; try (simpl; lia).
  vm_compute. discriminate.
Defined.

Lemma Unwrap_rejects_other_nonce_witness :
  @Unwrap sample_cipher sample_crypter sample_wrapped [9; 2; 3; 4; 5; 6; 7; 8] 0x81 1 5
  = Return None.
Proof.
  apply (@Unwrap_rejects_other_nonce sample_cipher sample_cipher_block_ok
           _DEFAULT_NETWORK_KEY sample_payload sample_nonce [9; 2; 3; 4; 5; 6; 7; 8]
           sample_random 0x81 1 5 0x81 1 5 1 9);
    try reflexivity; try (simpl; lia).
Defined.

Lemma Unwrap_short_message_witness :
  @Unwrap sample_cipher sample_crypter [1; 2; 3; 4; 5; 6; 7; 8] sample_nonce 0x81 1 5
  = Raise IndexError.
Proof. apply (@Unwrap_short_message sample_cipher). simpl. lia. Defined.

Lemma GetRandomList_constant_witness :
  GetRandomList (Z.of_nat 8) = replicate 8 0xaa.
Proof. apply GetRandomList_constant. lia. Defined.

Lemma _GetIntLittleEndian_bounds_witness :
  0 <= _GetIntLittleEndian [1; 2] < 256 ^ len [1; 2] /\
  0 <= _GetIntBigEndian [1; 2] < 256 ^ len [1; 2].
Proof. apply _GetIntLittleEndian_bounds. reflexivity. Defined.

Lemma rest_int_parse_then_assemble_witness :
  exists v,
    _ParseRestLittleEndianInt [0x70; 0x04; 1; 2; 3] 2 = Return (Tuple (len [0x70; 0x04; 1; 2; 3]) v) /\
    assemble_field "R" v [0x70; 0x04]
      = Return ([0x70; 0x04] ++ drop (Z.to_nat 2) [0x70; 0x04; 1; 2; 3]).
Proof.
  apply rest_int_parse_then_assemble; [reflexivity|]. change (len _) with 5. lia.
Defined.

Lemma _GetSignedValue_top_bit_clear_witness :
  _GetSignedValue (0 :: [200]) = Return (_GetIntBigEndian (0 :: [200])).
Proof. apply _GetSignedValue_top_bit_clear. lia. Defined.

Lemma _ParseGroups_outcome_witness :
  let count := Z.land 1 0x3f in
  if len [0x59; 0x04; 1; 5; 0; 0x20; 0x01; 0; 0x71; 0x02] <? 2 + 1 + count * 7
  then _ParseGroups [0x59; 0x04; 1; 5; 0; 0x20; 0x01; 0; 0x71; 0x02] 2
         = Return (Tuple 2 VNone)
  else exists groups,
         _ParseGroups [0x59; 0x04; 1; 5; 0; 0x20; 0x01; 0; 0x71; 0x02] 2
           = Return (Tuple (2 + 1 + count * 7) (VTuples groups)) /\
         len groups = count.
Proof.
  apply (_ParseGroups_outcome [0x59; 0x04; 1; 5; 0; 0x20; 0x01; 0; 0x71; 0x02] 2 1);
    [lia|reflexivity].
Defined.

Lemma ParseCommand_all_or_nothing_witness :
  let r := VDict {[ "level" := VInt 7 ]} in
  r = VList [] \/ r = VNone \/
  exists table out,
    @_GetParameterDescriptors sample_zwave [0x20; 0x01; 7] = Return (Some table) /\
    r = VDict out /\
    (forall name,
       is_Some (out !! name) <-> exists t, t ∈ table /\ str_slice t 2 (-1) = name) /\
    (forall name v, out !! name = Some v -> is_None v = false).
Proof.
  apply (@ParseCommand_all_or_nothing sample_zwave sample_codecs [0x20; 0x01; 7]).
  vm_compute. reflexivity.
Defined.

Lemma checked_decoders_witness :
  _ParseByte [0x20; 0x01] 2
    = Return (match [0x20; 0x01] !! Z.to_nat 2 with
              | Some b => Tuple (2 + 1) (VInt b)
              | None => Tuple 2 VNone
              end) /\
  _ParseWord [0x20; 0x01] 2
    = Return (match [0x20; 0x01] !! Z.to_nat 2, [0x20; 0x01] !! S (Z.to_nat 2) with
              | Some a, Some b => Tuple (2 + 2) (VInt (a * 256 + b))
              | _, _ => Tuple 2 VNone
              end) /\
  _ParseNonce [0x20; 0x01] 2
    = Return (if len [0x20; 0x01] <? 2 + 8 then Tuple 2 VNone
              else Tuple (2 + 8) (VList (take 8 (drop (Z.to_nat 2) [0x20; 0x01])))).
Proof. apply (checked_decoders [0x20; 0x01] 2). lia. Defined.

Lemma sensor_roundtrip_witness :
  let args : gmap string obj :=
    {[ "exp" := VInt 1; "scale" := VInt 0; "mantissa" := VList [0; 200] ]} in
  exists c,
    _MakeSensor args = Return (c :: [0; 200]) /\
    _ParseSensor ([0x31; 0x05; 1] ++ (c :: [0; 200]) ++ []) (len [0x31; 0x05; 1])
      = Return (Tuple (len [0x31; 0x05; 1] + 1 + len [0; 200])
                  (VDict (<["_value" := VFloat 200 (10 ^ 1)]> args))).
Proof.
  apply (sensor_roundtrip 1 0 200 [0; 200] [0x31; 0x05; 1] []);
    try lia; try reflexivity.
  simpl. lia.
Defined.

Lemma meter_without_delta_is_rejected_witness :
  let args : gmap string obj :=
    {[ "type" := VInt 1; "unit" := VInt 0; "exp" := VInt 0;
       "rate" := VInt 0; "mantissa" := VList [5] ]} in
  exists c1 c2,
    _MakeMeter args = Return ([c1; c2] ++ [5]) /\
    _ParseMeter ([0x32; 0x02] ++ [c1; c2] ++ [5]) (len [0x32; 0x02])
      = Return (Tuple (len [0x32; 0x02] + 2) VNone).
Proof.
  apply (meter_without_delta_is_rejected 1 0 0 0 [5] [0x32; 0x02]). simpl. lia.
Defined.

Lemma text_field_roundtrip_witness :
  let v := VDict {[ "encoding" := VInt 0; "text" := VList [72; 105] ]} in
  exists c,
    assemble_field "F" v [0x77; 0x03] = Return ([0x77; 0x03] ++ c :: [72; 105]) /\
    _ParseStringWithLengthAndEncoding ([0x77; 0x03] ++ (c :: [72; 105]) ++ [])
      (len [0x77; 0x03])
      = Return (Tuple (1 + len [72; 105]) v).
Proof.
  apply (text_field_roundtrip 0 [72; 105] [0x77; 0x03] [] [0x77; 0x03]). simpl. lia.
Defined.

Lemma AssembleCommand_header_witness :
  (exists body, [0x20; 0x01; 7] = 0x20 :: 0x01 :: body) /\
  @_GetParameterDescriptors sample_zwave [0x20; 0x01; 7]
    = @SUBCMD_TO_PARSE_TABLE sample_zwave (0x20 * 256 + 0x01).
Proof.
  apply (@AssembleCommand_header sample_zwave 0x20 0x01 {[ "level" := VInt 7 ]}).
  vm_compute. reflexivity.
Defined.

Lemma AssembleCommand_missing_field_witness :
  @AssembleCommand sample_zwave 0x70 0x04 {[ "parameter" := VInt 3 ]} = Raise KeyError.
Proof.
  apply (@AssembleCommand_missing_field sample_zwave sample_codecs 0x70 0x04
           ["B{parameter}"] [] "V{value}" "V").
  - reflexivity.
  - eapply (encodable_cons _ _ "B" (VInt 3)); [reflexivity|reflexivity|constructor|].
    apply encodable_nil.
  - reflexivity.
  - reflexivity.
Defined.

Lemma AssembleCommand_kind_without_encoder_witness :
  is_Some (@_PARSE_ACTIONS sample_codecs !! "G"%string) /\
  @AssembleCommand sample_zwave_more 0x59 0x04
    {[ "group" := VInt 1; "groups" := VTuples [] ]} = Raise AssertionError.
Proof.
  apply (@AssembleCommand_kind_without_encoder sample_zwave_more sample_codecs 0x59 0x04
           ["B{group}"] [] "G{groups}" "G" (VTuples [])).
  - reflexivity.
  - eapply (encodable_cons _ _ "B" (VInt 1)); [reflexivity|reflexivity|constructor|].
    apply encodable_nil.
  - reflexivity.
  - simpl. tauto.
  - reflexivity.
Defined.

Lemma ParseCommand_kind_without_decoder_witness :
  @ParseCommand sample_zwave_more sample_codecs (0x98 :: 0x06 :: replicate 16 0)
  = Raise KeyError.
Proof.
  apply (@ParseCommand_kind_without_decoder sample_zwave_more sample_codecs 0x98 0x06
           (replicate 16 0) [] "K{key}" "K").
  - reflexivity.
  - reflexivity.
  - simpl. tauto.
Defined.

Lemma _ParseValue__MakeValue_witness :
  exists bytes,
    _MakeValue 2 513 = Return (2 :: bytes) /\
    len bytes = Z.land 2 7 /\
    _ParseValue ([0x70; 0x04; 3] ++ (2 :: bytes) ++ []) (len [0x70; 0x04; 3])
      = Return (Tuple (len [0x70; 0x04; 3] + 1 + Z.land 2 7)
                  (VDict {[ "size" := VInt (Z.land 2 7); "value" := VInt 513 ]})).
Proof.
  apply (_ParseValue__MakeValue 2 513 [0x70; 0x04; 3] []).
  - right. left. reflexivity.
  - change (Z.land 2 7) with 2. lia.
Defined.
